(** * examStartScreen: the exam-taking component, embedded and verified

    Source: force-app/main/default/lwc/examStartScreen/examStartScreen.js

    The component is a class whose handlers mutate its fields and talk to the
    outside through Apex calls, toasts, alerts, the console and one interval
    timer.  Handlers are written in a small state-and-exception monad over
    the component's fields; what leaves the component is appended to a log
    of effects. *)

From Stdlib Require Import ZArith List String Ascii Bool Lia Sorted DecimalString.
Import ListNotations.
Local Open Scope string_scope.
Local Open Scope list_scope.
Local Open Scope Z_scope.

(** ** JavaScript values used by the component *)

Module JS.

(** A Number that holds an integer, an infinity or NaN.  The component only
    ever produces integer-valued Numbers, so the fraction is left out; the
    53-bit precision of a Number is not. *)
Inductive Number : Type :=
| NaN
| Inf (negative : bool)
| Fin (z : Z).

Definition Number_eqb (a b : Number) : bool :=
  match a, b with
  | NaN, NaN => true
  | Inf x, Inf y => Bool.eqb x y
  | Fin x, Fin y => x =? y
  | _, _ => false
  end.

Definition isNaN (a : Number) : bool :=
  match a with NaN => true | _ => false end.

(** [a === b] on Numbers: NaN differs from everything, itself included. *)
Definition strictEq (a b : Number) : bool :=
  negb (isNaN a) && Number_eqb a b.

(** SameValueZero, the comparison of [Array.prototype.includes]. *)
Definition sameValueZero (a b : Number) : bool := Number_eqb a b.

Definition MAX_SAFE : Z := 2 ^ 53.

(** An array has fewer than 2^32 elements. *)
Definition MAX_ARRAY_LENGTH : Z := 2 ^ 32 - 1.

(** The Number nearest to the integer [z], ties to the even significand.
    Up to 2^53 in magnitude every integer is a Number; above, the low bits
    beyond the 53-bit significand are rounded away, and 2^1024 is out of
    range. *)
Definition roundToDouble (z : Z) : Number :=
  let a := Z.abs z in
  if a <=? MAX_SAFE then Fin z
  else
    let e := Z.log2 a - 52 in
    let q := Z.shiftr a e in
    let r := Z.land a (Z.ones e) in
    let half := Z.shiftl 1 (e - 1) in
    let q' := if r <? half then q
              else if half <? r then q + 1
              else if Z.even q then q else q + 1 in
    let m := Z.shiftl q' e in
    if 2 ^ 1024 <=? m then Inf (z <? 0) else Fin (Z.sgn z * m).

(** [a + k] and [a - k] for an integer constant [k]. *)
Definition plus (a : Number) (k : Z) : Number :=
  match a with
  | Fin z => roundToDouble (z + k)
  | other => other
  end.

(** [a < b]. *)
Definition ltb (a b : Number) : bool :=
  match a, b with
  | NaN, _ | _, NaN => false
  | Fin x, Fin y => x <? y
  | Inf true, Inf true => false
  | Inf true, _ => true
  | Inf false, _ => false
  | Fin _, Inf negative => negb negative
  end.

(** Strings are sequences of code units; [ascii] holds the units 0..255. *)
Definition code (c : ascii) : Z := Z.of_N (N_of_ascii c).

(** WhiteSpace and LineTerminator code units below 256. *)
Definition isWhiteSpace (c : ascii) : bool :=
  let n := code c in
  ((9 <=? n) && (n <=? 13)) || (n =? 32) || (n =? 160).

Fixpoint trimStart (s : string) : string :=
  match s with
  | String c rest => if isWhiteSpace c then trimStart rest else s
  | EmptyString => EmptyString
  end.

Fixpoint rev_string (acc s : string) : string :=
  match s with
  | String c rest => rev_string (String c acc) rest
  | EmptyString => acc
  end.

Definition trimEnd (s : string) : string :=
  rev_string "" (trimStart (rev_string "" s)).

(** [s.trim()] *)
Definition trim (s : string) : string := trimStart (trimEnd s).

(** [s.split(':')[0]]: the text before the first colon. *)
Fixpoint split_colon_0 (s : string) : string :=
  match s with
  | String c rest =>
      if Ascii.eqb c ":"%char then EmptyString else String c (split_colon_0 rest)
  | EmptyString => EmptyString
  end.

Definition digitValue (c : ascii) : option Z :=
  let n := code c in
  if (48 <=? n) && (n <=? 57) then Some (n - 48) else None.

(** The longest prefix of decimal digits. *)
Fixpoint digitsPrefix (s : string) : list Z :=
  match s with
  | String c rest =>
      match digitValue c with
      | Some d => d :: digitsPrefix rest
      | None => []
      end
  | EmptyString => []
  end.

Definition mathInt (ds : list Z) : Z :=
  fold_left (fun acc d => 10 * acc + d) ds 0.

(** [parseInt(inputString, 10)]: leading white space is skipped, one sign
    is read, then as many decimal digits as there are; no digit gives NaN.
    (Past 20 significant digits an engine may round the digits themselves
    before converting; the conversion here is the exact one.) *)
Definition parseInt (inputString : string) : Number :=
  let trimmed := trimStart inputString in
  let '(sign, digits) :=
    match trimmed with
    | String "-"%char rest => (-1, rest)
    | String "+"%char rest => (1, rest)
    | _ => (1, trimmed)
    end in
  match digitsPrefix digits with
  | [] => NaN
  | ds => roundToDouble (sign * mathInt ds)
  end.

(** [`${x}`] for a string or [undefined]. *)
Definition template (x : option string) : string :=
  match x with
  | Some s => s
  | None => "undefined"
  end.

(** [`${n}`] for an integer Number: its decimal writing, with a minus
    sign when negative (magnitudes from 10^21 on, which switch to the
    exponent form, do not occur as question numbers). *)
Definition numberText (n : Z) : string := NilZero.string_of_int (Z.to_int n).

(** Truthiness of a string or [undefined]. *)
Definition truthy (x : option string) : bool :=
  match x with
  | Some EmptyString | None => false
  | Some _ => true
  end.

(** [array[i]] for a Number [i]: [undefined] unless [i] is an index. *)
Definition at_ {A : Type} (array : list A) (i : Number) : option A :=
  match i with
  | Fin z => if 0 <=? z then nth_error array (Z.to_nat z) else None
  | _ => None
  end.

(** [array.map((x, index) => f(x, index))] *)
Fixpoint map_from {A B : Type} (f : A -> nat -> B) (index : nat) (array : list A)
  : list B :=
  match array with
  | [] => []
  | x :: rest => f x index :: map_from f (S index) rest
  end.

Definition mapi {A B : Type} (f : A -> nat -> B) (array : list A) : list B :=
  map_from f 0%nat array.

(** The in-place change of the object held at one index of an array. *)
Fixpoint update {A : Type} (array : list A) (i : nat) (f : A -> A) : list A :=
  match array, i with
  | [], _ => []
  | x :: rest, O => f x :: rest
  | x :: rest, S j => x :: update rest j f
  end.

End JS.

(** ** Data of the component *)

(** What the Apex controller returns for one question. *)
Module Apex.
Record QuestionDTO : Type := {
  questionId : string;
  questionText : string;
  options : list string
}.

Record ResultDTO : Type := {
  result : string;
  correctAnswers : Z;
  incorrectAnswers : Z
}.
End Apex.

(** One entry of [optionList]. *)
Record Option_ : Type := {
  label : string;
  value : string;
  checked : bool;
  cssClass : string
}.

Record Question : Type := {
  questionId : string;
  questionText : string;
  optionList : list Option_;
  badgeClass : string;
  questionNumber : Z;
  reviewed : bool
}.

(** What the component sends out. *)
Inductive ConsoleLevel : Type := log | warn | error.

Inductive Effect : Type :=
| getQuestionsByExamId (examId : option string)
| saveOrUpdateResponse (attendeeId : option string) (questionId : string)
    (selectedAnswer : string) (examName : option string)
| evaluateExamResult (attendeeId : option string) (examName : option string)
| ShowToastEvent (title message variant : string)
| alert (message : string)
| console (level : ConsoleLevel) (message : string).

(** The fields of the class, and with them the two things of the host the
    handlers act on: the interval timers that are still scheduled and the
    log of effects, oldest first.  The identifiers are set by the host page
    and are [undefined] ([None]) until then.

    The pointer and the unanswered numbers are Numbers with their rounding,
    since the pointer can be set from text.  The clock and the counts of
    the result are small integers throughout, and array indices stay below
    2^32; arithmetic on those is exact and is written on [Z]. *)
Record Component : Type := {
  AttendeId : option string;
  examId : option string;
  questions : list Question;
  currentQuestionIndex : JS.Number;
  unansweredQuestionNumbers : list JS.Number;
  showResult : bool;
  result : string;
  correct : Z;
  wrong : Z;
  questionList : bool;
  minutes : Z;
  seconds : Z;
  timerInterval : option nat;
  intervals : list nat;
  nextInterval : nat;
  effects : list Effect
}.

Definition set_questions (v : list Question) (c : Component) : Component :=
  {| AttendeId := AttendeId c; examId := examId c; questions := v;
     currentQuestionIndex := currentQuestionIndex c;
     unansweredQuestionNumbers := unansweredQuestionNumbers c;
     showResult := showResult c; result := result c; correct := correct c;
     wrong := wrong c; questionList := questionList c; minutes := minutes c;
     seconds := seconds c; timerInterval := timerInterval c;
     intervals := intervals c; nextInterval := nextInterval c;
     effects := effects c |}.

Definition set_currentQuestionIndex (v : JS.Number) (c : Component) : Component :=
  {| AttendeId := AttendeId c; examId := examId c; questions := questions c;
     currentQuestionIndex := v;
     unansweredQuestionNumbers := unansweredQuestionNumbers c;
     showResult := showResult c; result := result c; correct := correct c;
     wrong := wrong c; questionList := questionList c; minutes := minutes c;
     seconds := seconds c; timerInterval := timerInterval c;
     intervals := intervals c; nextInterval := nextInterval c;
     effects := effects c |}.

Definition set_unansweredQuestionNumbers (v : list JS.Number) (c : Component)
  : Component :=
  {| AttendeId := AttendeId c; examId := examId c; questions := questions c;
     currentQuestionIndex := currentQuestionIndex c;
     unansweredQuestionNumbers := v;
     showResult := showResult c; result := result c; correct := correct c;
     wrong := wrong c; questionList := questionList c; minutes := minutes c;
     seconds := seconds c; timerInterval := timerInterval c;
     intervals := intervals c; nextInterval := nextInterval c;
     effects := effects c |}.

Definition set_result (r : Apex.ResultDTO) (c : Component) : Component :=
  {| AttendeId := AttendeId c; examId := examId c; questions := questions c;
     currentQuestionIndex := currentQuestionIndex c;
     unansweredQuestionNumbers := unansweredQuestionNumbers c;
     showResult := true; result := Apex.result r;
     correct := Apex.correctAnswers r; wrong := Apex.incorrectAnswers r;
     questionList := questionList c; minutes := minutes c;
     seconds := seconds c; timerInterval := timerInterval c;
     intervals := intervals c; nextInterval := nextInterval c;
     effects := effects c |}.

Definition set_questionList (v : bool) (c : Component) : Component :=
  {| AttendeId := AttendeId c; examId := examId c; questions := questions c;
     currentQuestionIndex := currentQuestionIndex c;
     unansweredQuestionNumbers := unansweredQuestionNumbers c;
     showResult := showResult c; result := result c; correct := correct c;
     wrong := wrong c; questionList := v; minutes := minutes c;
     seconds := seconds c; timerInterval := timerInterval c;
     intervals := intervals c; nextInterval := nextInterval c;
     effects := effects c |}.

Definition set_time (m s : Z) (c : Component) : Component :=
  {| AttendeId := AttendeId c; examId := examId c; questions := questions c;
     currentQuestionIndex := currentQuestionIndex c;
     unansweredQuestionNumbers := unansweredQuestionNumbers c;
     showResult := showResult c; result := result c; correct := correct c;
     wrong := wrong c; questionList := questionList c; minutes := m;
     seconds := s; timerInterval := timerInterval c;
     intervals := intervals c; nextInterval := nextInterval c;
     effects := effects c |}.

Definition set_timer (handle : option nat) (live : list nat) (next : nat)
  (c : Component) : Component :=
  {| AttendeId := AttendeId c; examId := examId c; questions := questions c;
     currentQuestionIndex := currentQuestionIndex c;
     unansweredQuestionNumbers := unansweredQuestionNumbers c;
     showResult := showResult c; result := result c; correct := correct c;
     wrong := wrong c; questionList := questionList c; minutes := minutes c;
     seconds := seconds c; timerInterval := handle;
     intervals := live; nextInterval := next;
     effects := effects c |}.

Definition set_effects (v : list Effect) (c : Component) : Component :=
  {| AttendeId := AttendeId c; examId := examId c; questions := questions c;
     currentQuestionIndex := currentQuestionIndex c;
     unansweredQuestionNumbers := unansweredQuestionNumbers c;
     showResult := showResult c; result := result c; correct := correct c;
     wrong := wrong c; questionList := questionList c; minutes := minutes c;
     seconds := seconds c; timerInterval := timerInterval c;
     intervals := intervals c; nextInterval := nextInterval c;
     effects := v |}.

(** The component as its field initialisers leave it, given the two
    identifiers of the host page. *)
Definition init (attendee exam : option string) : Component :=
  {| AttendeId := attendee; examId := exam; questions := [];
     currentQuestionIndex := JS.Fin 0; unansweredQuestionNumbers := [];
     showResult := false; result := ""; correct := 0; wrong := 0;
     questionList := false; minutes := 2; seconds := 0;
     timerInterval := None; intervals := []; nextInterval := 1%nat;
     effects := [] |}.

(** ** Handlers run in a monad of state and exceptions

    A handler that throws keeps what it has written so far: the state comes
    back with either completion. *)

Inductive Completion (A : Type) : Type :=
| Normal (a : A)
| Throw (exception : string).
Arguments Normal {A} a.
Arguments Throw {A} exception.

Definition M (A : Type) : Type := Component -> Completion A * Component.

Definition ret {A : Type} (a : A) : M A := fun c => (Normal a, c).

Definition bind {A B : Type} (m : M A) (k : A -> M B) : M B :=
  fun c =>
    match m c with
    | (Normal a, c') => k a c'
    | (Throw e, c') => (Throw e, c')
    end.

Definition throw {A : Type} (e : string) : M A := fun c => (Throw e, c).

Definition this {A : Type} (field : Component -> A) : M A :=
  fun c => (Normal (field c), c).

Definition assign (f : Component -> Component) : M unit :=
  fun c => (Normal tt, f c).

Definition emit (e : Effect) : M unit :=
  assign (fun c => set_effects (effects c ++ [e]) c).

(** The state a handler leaves behind, however it completes. *)
Definition exec {A : Type} (m : M A) (c : Component) : Component := snd (m c).

Declare Scope js_scope.
Delimit Scope js_scope with js.
Notation "x <- m ;; k" := (bind m (fun x => k))
  (at level 61, m at next level, right associativity) : js_scope.
Notation "m ;; k" := (bind m (fun _ => k))
  (at level 61, right associativity) : js_scope.
Local Open Scope js_scope.

(** Reading a property of [this.questions[this.currentQuestionIndex]]:
    a TypeError when there is no such element. *)
Definition currentQuestion : M Question :=
  index <- this currentQuestionIndex ;;
  array <- this questions ;;
  match JS.at_ array index with
  | Some question => ret question
  | None => throw "TypeError: Cannot read properties of undefined"
  end.

(** Writes through the reference [question] obtained by [currentQuestion]. *)
Definition mutateCurrentQuestion (f : Question -> Question) : M unit :=
  index <- this currentQuestionIndex ;;
  match index with
  | JS.Fin z =>
      if 0 <=? z
      then assign (fun c => set_questions (JS.update (questions c) (Z.to_nat z) f) c)
      else ret tt
  | _ => ret tt
  end.

(** [clearInterval(handle)]; clearing [undefined] does nothing. *)
Definition clearInterval (handle : option nat) : M unit :=
  match handle with
  | Some h =>
      assign (fun c => set_timer (timerInterval c)
                         (List.filter (fun i => negb (Nat.eqb i h)) (intervals c))
                         (nextInterval c) c)
  | None => ret tt
  end.

(** [setInterval(callback, 1000)]: schedules a fresh handle. *)
Definition setInterval : M nat :=
  h <- this nextInterval ;;
  assign (fun c => set_timer (timerInterval c) (intervals c ++ [h]) (S h) c) ;;
  ret h.

(** ** The methods of the class, in the order of the source *)

Definition labels : list string := ["A"; "B"; "C"; "D"].

Definition loaded_option (opt : string) (i : nat) : Option_ :=
  {| label := JS.template (nth_error labels i) ++ ": " ++ opt;
     value := opt;
     checked := false;
     cssClass := "option" |}.

Definition loaded_question (q : Apex.QuestionDTO) (index : nat) : Question :=
  {| questionId := Apex.questionId q;
     questionText := Apex.questionText q;
     optionList := JS.mapi loaded_option (Apex.options q);
     badgeClass := "badge unanswered";
     questionNumber := Z.of_nat index + 1;
     reviewed := false |}.

(** [loadQuestions]: the request, and the two callbacks of its promise. *)
Definition loadQuestions : M unit :=
  exam <- this examId ;;
  emit (getQuestionsByExamId exam).

Definition loadQuestions_then (result : list Apex.QuestionDTO) : M unit :=
  assign (set_questionList true) ;;
  assign (set_questions (JS.mapi loaded_question result)) ;;
  emit (console log "Questions loaded:").

Definition loadQuestions_catch : M unit :=
  emit (console error "Error loading questions:").

Definition set_optionList (v : list Option_) (q : Question) : Question :=
  {| questionId := questionId q; questionText := questionText q;
     optionList := v; badgeClass := badgeClass q;
     questionNumber := questionNumber q; reviewed := reviewed q |}.

Definition set_badgeClass (v : string) (q : Question) : Question :=
  {| questionId := questionId q; questionText := questionText q;
     optionList := optionList q; badgeClass := v;
     questionNumber := questionNumber q; reviewed := reviewed q |}.

Definition set_reviewed (v : bool) (q : Question) : Question :=
  {| questionId := questionId q; questionText := questionText q;
     optionList := optionList q; badgeClass := badgeClass q;
     questionNumber := questionNumber q; reviewed := v |}.

(** The body of the [forEach] of [handleOptionChange]. *)
Definition mark (selectedOption : string) (opt : Option_) : Option_ :=
  let hit := String.eqb (value opt) selectedOption in
  {| label := label opt; value := value opt; checked := hit;
     cssClass := if hit then "option selected" else "option" |}.

(** [selected.label.split(':')[0].trim()] *)
Definition labelPrefix (selected : Option_) : string :=
  JS.trim (JS.split_colon_0 (label selected)).

Definition updateUnansweredTracking : M unit :=
  index <- this currentQuestionIndex ;;
  question <- currentQuestion ;;
  let questionNumber := JS.plus index 1 in
  if negb (existsb checked (optionList question)) then
    unanswered <- this unansweredQuestionNumbers ;;
    if negb (existsb (JS.sameValueZero questionNumber) unanswered)
    then assign (set_unansweredQuestionNumbers (unanswered ++ [questionNumber]))
    else ret tt
  else
    assign (fun c =>
      set_unansweredQuestionNumbers
        (List.filter (fun num => negb (JS.strictEq num questionNumber))
           (unansweredQuestionNumbers c)) c).

Definition handleOptionChange (selectedOption : string) : M unit :=
  _ <- currentQuestion ;;
  mutateCurrentQuestion
    (fun q => set_optionList (map (mark selectedOption) (optionList q)) q) ;;
  question <- currentQuestion ;;
  (if existsb checked (optionList question) then
     (if reviewed question
      then mutateCurrentQuestion (set_reviewed false)
      else ret tt) ;;
     mutateCurrentQuestion (set_badgeClass "badge answered")
   else
     mutateCurrentQuestion
       (set_badgeClass (if reviewed question then "badge review"
                        else "badge unanswered"))) ;;
  updateUnansweredTracking ;;
  match List.find checked (optionList question) with
  | Some selected =>
      attendee <- this AttendeId ;;
      exam <- this examId ;;
      emit (saveOrUpdateResponse attendee (questionId question)
              (labelPrefix selected) exam)
  | None => ret tt
  end.

(** The callbacks of the promise of [saveOrUpdateResponse].  The first
    one closes over [question] and [labelPrefix] of the call and reads the
    question's number, which no handler writes, when the call has
    succeeded. *)
Definition saveOrUpdateResponse_then (questionNumber : Z) (labelPrefix : string)
  : M unit :=
  emit (console log
          ("Saved response for Q" ++ JS.numberText questionNumber ++ ": "
           ++ labelPrefix)%string).

Definition saveOrUpdateResponse_catch : M unit :=
  emit (console error "Error saving response:").

Definition handleReview : M unit :=
  _ <- currentQuestion ;;
  mutateCurrentQuestion (set_reviewed true) ;;
  mutateCurrentQuestion (set_badgeClass "badge review").

Definition handleNext : M unit :=
  updateUnansweredTracking ;;
  index <- this currentQuestionIndex ;;
  array <- this questions ;;
  if JS.ltb index (JS.Fin (Z.of_nat (List.length array) - 1))
  then assign (set_currentQuestionIndex (JS.plus index 1))
  else ret tt.

Definition handlePrevious : M unit :=
  updateUnansweredTracking ;;
  index <- this currentQuestionIndex ;;
  if JS.ltb (JS.Fin 0) index
  then assign (set_currentQuestionIndex (JS.plus index (-1)))
  else ret tt.

Definition showNotification : M unit :=
  emit (ShowToastEvent "Success"
          "Quiz submitted successfully! View your score on the results screen"
          "success").

(** The [forEach] of [handleSubmit], from position [index] on; it returns
    [selectedAnswersWithIds].  [index] is an array index, so [index + 1] is
    exact. *)
Fixpoint handleSubmit_forEach (array : list Question) (index : Z)
  (selectedAnswersWithIds : list (string * string)) : M (list (string * string)) :=
  match array with
  | [] => ret selectedAnswersWithIds
  | question :: rest =>
      match List.find checked (optionList question) with
      | None =>
          assign (fun c =>
            set_unansweredQuestionNumbers
              (unansweredQuestionNumbers c ++ [JS.Fin (index + 1)]) c) ;;
          handleSubmit_forEach rest (index + 1) selectedAnswersWithIds
      | Some selected =>
          handleSubmit_forEach rest (index + 1)
            (selectedAnswersWithIds ++ [(questionId question, labelPrefix selected)])
      end
  end.

Definition handleSubmit : M unit :=
  handle <- this timerInterval ;;
  clearInterval handle ;;
  assign (set_unansweredQuestionNumbers []) ;;
  array <- this questions ;;
  _ <- handleSubmit_forEach array 0 [] ;;
  unanswered <- this unansweredQuestionNumbers ;;
  if (0 <? Z.of_nat (List.length unanswered)) then
    emit (console warn "Unanswered questions:")
  else
    assign (set_questionList false) ;;
    showNotification ;;
    attendee <- this AttendeId ;;
    exam <- this examId ;;
    emit (evaluateExamResult attendee exam).

(** The callbacks of the promise of [evaluateExamResult]. *)
Definition evaluateExamResult_then (resultData : Apex.ResultDTO) : M unit :=
  assign (set_result resultData) ;;
  emit (console log "Exam evaluated:").

Definition evaluateExamResult_catch : M unit :=
  emit (console error "Error evaluating exam:") ;;
  emit (alert "There was an error submitting your exam. Please try again.").

Definition handleTimeUp : M unit :=
  emit (alert "Time is up! Submitting your exam.") ;;
  handleSubmit ;;
  showNotification.

(** The callback that [startTimer] hands to [setInterval]. *)
Definition startTimer_callback : M unit :=
  s <- this seconds ;;
  if s =? 0 then
    m <- this minutes ;;
    if m =? 0 then
      handle <- this timerInterval ;;
      clearInterval handle ;;
      handleTimeUp
    else
      assign (fun c => set_time (minutes c - 1) (seconds c) c) ;;
      assign (fun c => set_time (minutes c) 59 c)
  else
    assign (fun c => set_time (minutes c) (seconds c - 1) c).

Definition startTimer : M unit :=
  handle <- setInterval ;;
  assign (fun c => set_timer (Some handle) (intervals c) (nextInterval c) c).

Definition connectedCallback : M unit :=
  exam <- this examId ;;
  if JS.truthy exam then
    loadQuestions ;;
    startTimer
  else ret tt.

(** [handleBadgeClick]; [dataset_index] is [event.target.dataset.index],
    a string. *)
Definition handleBadgeClick (dataset_index : string) : M unit :=
  let index := JS.parseInt dataset_index in
  if negb (JS.isNaN index)
  then assign (set_currentQuestionIndex (JS.plus index (-1)))
  else ret tt.

(** The getters. *)
Definition currentQuestionNumber (c : Component) : JS.Number :=
  JS.plus (currentQuestionIndex c) 1.

Definition get_currentQuestion (c : Component) : option Question :=
  JS.at_ (questions c) (currentQuestionIndex c).

Definition allQuestionsAnswered (c : Component) : bool :=
  (0 <? Z.of_nat (List.length (questions c)))
  && forallb (fun q => existsb checked (optionList q)) (questions c).

Definition isSubmitDisabled (c : Component) : bool :=
  negb (allQuestionsAnswered c).

(** ** The component as a state machine

    What the user does with the page, under the names of the specification,
    and what the host does besides: mounting, the timer, the promises. *)

Inductive Operation : Type :=
| selectOption (value : string)
| markForReview
| next
| previous
| jumpTo (displayNumber : string)
| submit.

Definition perform (op : Operation) : M unit :=
  match op with
  | selectOption v => handleOptionChange v
  | markForReview => handleReview
  | next => handleNext
  | previous => handlePrevious
  | jumpTo s => handleBadgeClick s
  | submit => handleSubmit
  end.

Inductive Event : Type :=
| connected
| questionsLoaded (result : list Apex.QuestionDTO)
| questionsFailed
| user (op : Operation)
| tick (handle : nat)
| responseSaved (questionNumber : Z) (labelPrefix : string)
| responseFailed
| examEvaluated (resultData : Apex.ResultDTO)
| examFailed.

(** A cleared interval no longer calls back. *)
Definition dispatch (e : Event) : M unit :=
  match e with
  | connected => connectedCallback
  | questionsLoaded result => loadQuestions_then result
  | questionsFailed => loadQuestions_catch
  | user op => perform op
  | tick handle =>
      live <- this intervals ;;
      if existsb (Nat.eqb handle) live then startTimer_callback else ret tt
  | responseSaved questionNumber labelPrefix =>
      saveOrUpdateResponse_then questionNumber labelPrefix
  | responseFailed => saveOrUpdateResponse_catch
  | examEvaluated resultData => evaluateExamResult_then resultData
  | examFailed => evaluateExamResult_catch
  end.

Definition step (c : Component) (e : Event) : Component := exec (dispatch e) c.

Definition run (events : list Event) (c : Component) : Component :=
  fold_left step events c.

(** An exception that a handler lets escape ends that handler only: the
    page goes on with the state as it is. *)
Definition operate (ops : list Operation) (c : Component) : Component :=
  fold_left (fun c op => exec (perform op) c) ops c.

(** The component once [result] has been loaded into a fresh instance. *)
Definition loaded (attendee exam : option string) (result : list Apex.QuestionDTO)
  : Component :=
  exec (loadQuestions_then result) (init attendee exam).

(** [n] ticks of the interval [handle]. *)
Definition ticks (handle : nat) (n : nat) (c : Component) : Component :=
  run (repeat (tick handle) n) c.

(** ** Words of the specification *)

(** A question is answered when one of its options is selected. *)
Definition answered (q : Question) : bool := existsb checked (optionList q).

(** How many options of a question are selected. *)
Definition selectedCount (q : Question) : nat :=
  List.length (List.filter checked (optionList q)).

(** The question with display number [n] (its 1-based position) exists and
    has no selected option. *)
Definition unansweredAt (array : list Question) (n : Z) : Prop :=
  1 <= n /\
  exists q, nth_error array (Z.to_nat (n - 1)) = Some q /\ answered q = false.

(** The display numbers the scan of [handleSubmit] collects from position
    [index] on. *)
Fixpoint unansweredFrom (array : list Question) (index : Z) : list Z :=
  match array with
  | [] => []
  | q :: rest =>
      if answered q then unansweredFrom rest (index + 1)
      else (index + 1) :: unansweredFrom rest (index + 1)
  end.

(** The grading requests among some effects, with what they carry. *)
Definition gradingRequests (es : list Effect)
  : list (option string * option string) :=
  flat_map (fun e => match e with
                     | evaluateExamResult a x => [(a, x)]
                     | _ => []
                     end) es.

Definition successToast : Effect :=
  ShowToastEvent "Success"
    "Quiz submitted successfully! View your score on the results screen"
    "success".

Definition timeUpAlert : Effect := alert "Time is up! Submitting your exam.".



(** A property of the state that a computation keeps, whether it returns
    or throws. *)
Definition invariant (I : Component -> Prop) {A : Type} (m : M A) : Prop :=
  forall c, I c -> I (snd (m c)).

(** No display number is listed twice. *)
Definition noDuplicates (c : Component) : Prop :=
  NoDup (unansweredQuestionNumbers c).

(** The letters the specification labels options with: A, B, C, D and so
    on, by position. *)
Definition letter (i : nat) : string :=
  String (ascii_of_nat (65 + i)) EmptyString.



(** At most one option of each question is selected. *)
Definition atMostOneSelected (c : Component) : Prop :=
  Forall (fun q => (selectedCount q <= 1)%nat) (questions c).

(** The options of a question differ in value, and at most one of them is
    selected. *)
Definition singleChoice (q : Question) : Prop :=
  NoDup (map value (optionList q)) /\ (selectedCount q <= 1)%nat.

Definition allSingleChoice (c : Component) : Prop :=
  Forall singleChoice (questions c).

(** The pointer is an index into the question sequence. *)
Definition pointerValid (c : Component) : Prop :=
  exists z, currentQuestionIndex c = JS.Fin z /\
            0 <= z < Z.of_nat (List.length (questions c)).

Definition navigation (op : Operation) : bool :=
  match op with
  | next | previous | jumpTo _ => true
  | _ => false
  end.

(** A navigation whose jumps either have an input that does not parse to
    a number, or go to display numbers that exist among [len] questions. *)
Definition navigationInRange (len : nat) (op : Operation) : bool :=
  match op with
  | next | previous => true
  | jumpTo s =>
      match JS.parseInt s with
      | JS.Fin n => (1 <=? n) && (n <=? Z.of_nat len)
      | JS.NaN => true
      | JS.Inf _ => false
      end
  | _ => false
  end.

(** The sequence has [len] questions and the pointer is an index into
    it. *)
Definition navigable (len : nat) (c : Component) : Prop :=
  List.length (questions c) = len /\ pointerValid c.

(** ** A small quiz, for running the component *)

Definition quiz_question (id : string) (opts : list string) : Apex.QuestionDTO :=
  {| Apex.questionId := id; Apex.questionText := "?"; Apex.options := opts |}.

Definition quiz : list Apex.QuestionDTO :=
  [quiz_question "Q-1" ["x"; "y"];
   quiz_question "Q-2" ["p"; "q"; "r"];
   quiz_question "Q-3" ["a"; "b"; "c"; "d"]].

Definition fresh_quiz : Component := loaded (Some "ATT-7") (Some "EXAM-1") quiz.

(** Questions 1 and 3 answered, question 2 left open. *)
Definition two_of_three : Component :=
  operate [selectOption "y"; next; next; selectOption "a"] fresh_quiz.

Definition all_three : Component :=
  operate [previous; selectOption "q"] two_of_three.


(** The second question is the current one and is marked for review. *)
Definition reviewing_second : Component :=
  operate [next; markForReview] fresh_quiz.

(** A question whose two options carry the same text. *)
Definition twin_options : list Apex.QuestionDTO :=
  [quiz_question "Q-9" ["x"; "x"]].

(** The same quiz mounted by the host: the questions are requested, the
    timer is started, the questions arrive. *)
Definition started_quiz : Component :=
  run [connected; questionsLoaded quiz] (init (Some "ATT-7") (Some "EXAM-1")).

(** The component with its own timer cleared, as [handleSubmit] and the
    expiring tick leave it. *)
Definition stopped (c : Component) : Component :=
  exec (clearInterval (timerInterval c)) c.

(** ** The remaining getters, and words for the other handlers *)

(** [get showPrevious] *)
Definition showPrevious (c : Component) : bool :=
  JS.ltb (JS.Fin 0) (currentQuestionIndex c).

(** [get showSubmit] *)
Definition showSubmit (c : Component) : bool :=
  JS.strictEq (currentQuestionIndex c)
    (JS.Fin (Z.of_nat (List.length (questions c)) - 1)).

(** The time on the clock, in seconds. *)
Definition remaining (c : Component) : Z := 60 * minutes c + seconds c.

(** The save requests among some effects. *)
Definition saveRequests (es : list Effect) : list Effect :=
  List.filter (fun e => match e with
                        | saveOrUpdateResponse _ _ _ _ => true
                        | _ => false
                        end) es.

(** What the loader fixes in a question and no handler writes: its
    identifier, text and number, and the label and value of each option. *)
Definition content (q : Question)
  : string * string * Z * list (string * string) :=
  (questionId q, questionText q, questionNumber q,
   map (fun o => (label o, value o)) (optionList q)).

(** The class of an option says whether it is selected. *)
Definition styled (o : Option_) : Prop :=
  cssClass o = if checked o then "option selected" else "option".

(** The three ways a badge goes with the review flag and the selection. *)
Definition badged (q : Question) : Prop :=
  (badgeClass q = "badge review" /\ reviewed q = true) \/
  (badgeClass q = "badge answered" /\ reviewed q = false /\ answered q = true) \/
  (badgeClass q = "badge unanswered" /\ reviewed q = false /\ answered q = false).

(** The question that [handleOptionChange] leaves where [q] was: the
    options marked for [v], then the badge and the review flag set from
    the marks. *)
Definition chosen (v : string) (q : Question) : Question :=
  let q1 := set_optionList (map (mark v) (optionList q)) q in
  if existsb checked (optionList q1) then
    set_badgeClass "badge answered"
      (if reviewed q1 then set_reviewed false q1 else q1)
  else
    set_badgeClass
      (if reviewed q1 then "badge review" else "badge unanswered") q1.

(** The first option with value [v]. *)
Definition optionOf (v : string) (q : Question) : option Option_ :=
  List.find (fun o => String.eqb (value o) v) (optionList q).

(** The events that can submit: the user's submit and a tick of the
    timer. *)
Definition submits (e : Event) : bool :=
  match e with
  | user submit | tick _ => true
  | _ => false
  end.

(** What the service returned for a question, as the component holds it:
    the identifier, the text, and the option texts as the values of the
    options. *)
Definition served (q : Question) : string * string * list string :=
  (questionId q, questionText q, map value (optionList q)).

(** Every listed number is the display number of one of [len]
    questions. *)
Definition listedExist (len : nat) (c : Component) : Prop :=
  List.length (questions c) = len /\
  Forall (fun n => exists k, n = JS.Fin k /\ 1 <= k <= Z.of_nat len)
    (unansweredQuestionNumbers c).

(** What the grading service's answer sets. *)
Definition outcome (c : Component) : bool * string * Z * Z :=
  (showResult c, result c, correct c, wrong c).

(** The event is the arrival of the grading result. *)
Definition isResult (e : Event) : bool :=
  match e with examEvaluated _ => true | _ => false end.

(** The event is a tick of an interval. *)
Definition isTick (e : Event) : bool :=
  match e with tick _ => true | _ => false end.

(** The host never gave an exam: nothing is mounted. *)
Definition idle_quiz : Component :=
  run [connected] (init (Some "ATT-7") None).

(** The request for the questions failed while the clock went on. *)
Definition unloaded_quiz : Component :=
  run [connected; questionsFailed] (init (Some "ATT-7") (Some "EXAM-1")).

(** The pointer was sent past the three questions. *)
Definition lost_quiz : Component := operate [jumpTo "7"] fresh_quiz.

(** Every question answered, with the timer running. *)
Definition answered_quiz : Component :=
  operate [selectOption "x"; next; selectOption "p"; next; selectOption "d"]
    started_quiz.

(** * Properties *)

(** ** The primitives on concrete inputs *)

Example parseInt_3 : JS.parseInt "3" = JS.Fin 3.
Proof. reflexivity. Qed.

Example parseInt_abc : JS.parseInt "abc" = JS.NaN.
Proof. reflexivity. Qed.

Example parseInt_mixed : JS.parseInt "  -12px" = JS.Fin (-12).
Proof. reflexivity. Qed.

Example parseInt_big : JS.parseInt "9007199254740993" = JS.Fin 9007199254740992.
Proof. vm_compute. reflexivity. Qed.

Example roundToDouble_tie_up : JS.roundToDouble 9007199254740995 = JS.Fin 9007199254740996.
Proof. vm_compute. reflexivity. Qed.

Example roundToDouble_overflow : JS.roundToDouble (2 ^ 1024) = JS.Inf false.
Proof. vm_compute. reflexivity. Qed.

Example trim_label : JS.trim (JS.split_colon_0 "A: x") = "A".
Proof. reflexivity. Qed.

(** ** The component on the small quiz *)

Example fresh_quiz_labels :
  map (fun q => map label (optionList q)) (questions fresh_quiz) =
  [["A: x"; "B: y"]; ["A: p"; "B: q"; "C: r"]; ["A: a"; "B: b"; "C: c"; "D: d"]].
Proof. reflexivity. Qed.

Example two_of_three_submit :
  unansweredQuestionNumbers (exec handleSubmit two_of_three) = [JS.Fin 2] /\
  gradingRequests (effects (exec handleSubmit two_of_three)) = [].
Proof. split; reflexivity. Qed.

Example all_three_submit :
  gradingRequests (effects (exec handleSubmit all_three)) =
  [(Some "ATT-7", Some "EXAM-1")].
Proof. reflexivity. Qed.

Example selection_without_question :
  fst (handleOptionChange "x" (operate [jumpTo "0"] fresh_quiz)) =
  Throw "TypeError: Cannot read properties of undefined".
Proof. reflexivity. Qed.

Example started_quiz_clock :
  let c := ticks 1 61 started_quiz in (minutes c, seconds c) = (0, 59).
Proof. vm_compute. reflexivity. Qed.

Example saved_response_log :
  effects (step (init None None) (responseSaved 2 "B")) =
  [console log "Saved response for Q2: B"].
Proof. reflexivity. Qed.

Example started_quiz_expiry :
  effects (ticks 1 121 started_quiz) =
  [getQuestionsByExamId (Some "EXAM-1"); console log "Questions loaded:";
   timeUpAlert; console warn "Unanswered questions:"; successToast].
Proof. vm_compute. reflexivity. Qed.

(** ** Facts about the primitives *)

Lemma set_unanswered_same (c : Component) :
  set_unansweredQuestionNumbers (unansweredQuestionNumbers c) c = c.
Proof. destruct c; reflexivity. Qed.

Lemma find_none_existsb {A : Type} (p : A -> bool) (l : list A) :
  List.find p l = None <-> existsb p l = false.
Proof.
  induction l as [|x l IH]; simpl.
  - tauto.
  - destruct (p x); simpl; [split; discriminate | exact IH].
Qed.

Lemma find_some_existsb {A : Type} (p : A -> bool) (l : list A) :
  existsb p l = true -> exists x, List.find p l = Some x.
Proof.
  intros H. destruct (List.find p l) as [x|] eqn:E; [eauto|].
  apply find_none_existsb in E. congruence.
Qed.

(** The scan of [handleSubmit] never throws; it appends the display numbers
    of the unanswered questions to the list and touches nothing else. *)
Lemma handleSubmit_forEach_run (array : list Question) :
  forall index acc c,
    exists acc',
      handleSubmit_forEach array index acc c =
      (Normal acc',
       set_unansweredQuestionNumbers
         (unansweredQuestionNumbers c ++ map JS.Fin (unansweredFrom array index)) c).
Proof.
  induction array as [|q rest IH]; intros index acc c; simpl.
  - exists acc. unfold ret. rewrite app_nil_r, set_unanswered_same. reflexivity.
  - unfold answered. destruct (List.find checked (optionList q)) as [o|] eqn:E.
    + assert (existsb checked (optionList q) = true) as ->.
      { destruct (existsb checked (optionList q)) eqn:X; [reflexivity|].
        apply find_none_existsb in X. congruence. }
      apply IH.
    + apply find_none_existsb in E. rewrite E.
      unfold bind, assign.
      destruct (IH (index + 1) acc
                  (set_unansweredQuestionNumbers
                     (unansweredQuestionNumbers c ++ [JS.Fin (index + 1)]) c))
        as [acc' ->].
      exists acc'. f_equal. destruct c; simpl. rewrite <- app_assoc. reflexivity.
Qed.

(** The numbers collected from [index] on are the positions, counted from
    [index + 1], of the unanswered questions. *)
Lemma unansweredFrom_In (array : list Question) :
  forall index n,
    In n (unansweredFrom array index) <->
    index < n /\
    exists q, nth_error array (Z.to_nat (n - index - 1)) = Some q /\ answered q = false.
Proof.
  induction array as [|q rest IH]; intros index n; simpl.
  - split; [tauto|]. intros [_ [q [H _]]]. destruct (Z.to_nat _); discriminate.
  - assert (Hrest :
      (index + 1 < n /\ exists q', nth_error rest (Z.to_nat (n - (index + 1) - 1)) = Some q'
                                   /\ answered q' = false) <->
      (index + 1 < n /\ exists q', nth_error (q :: rest) (Z.to_nat (n - index - 1)) = Some q'
                                   /\ answered q' = false)).
    { split; intros [Hlt [q' [Hn Ha]]]; split; try lia; exists q'; split; trivial.
      - replace (Z.to_nat (n - index - 1)) with (S (Z.to_nat (n - (index + 1) - 1))) by lia.
        exact Hn.
      - replace (Z.to_nat (n - index - 1)) with (S (Z.to_nat (n - (index + 1) - 1))) in Hn by lia.
        exact Hn. }
    destruct (answered q) eqn:Ea.
    + rewrite IH, Hrest. split.
      * intros [Hlt H]. split; [lia | exact H].
      * intros [Hlt [q' [Hn Ha]]].
        assert (n = index + 1 \/ index + 1 < n) as [->|Hgt] by lia.
        -- replace (Z.to_nat (index + 1 - index - 1)) with 0%nat in Hn by lia.
           simpl in Hn. congruence.
        -- split; [exact Hgt | eauto].
    + simpl. rewrite IH, Hrest. split.
      * intros [<-|[Hlt H]].
        -- split; [lia|]. exists q.
           replace (Z.to_nat (index + 1 - index - 1)) with 0%nat by lia. auto.
        -- split; [lia | exact H].
      * intros [Hlt [q' [Hn Ha]]].
        assert (n = index + 1 \/ index + 1 < n) as [->|Hgt] by lia; [now left|].
        right. split; [exact Hgt | eauto].
Qed.

Lemma unansweredFrom_lower (array : list Question) :
  forall index, Forall (fun n => index < n) (unansweredFrom array index).
Proof.
  intros index. apply Forall_forall. intros n H.
  apply unansweredFrom_In in H. tauto.
Qed.

Lemma unansweredFrom_sorted (array : list Question) :
  forall index, StronglySorted Z.lt (unansweredFrom array index).
Proof.
  induction array as [|q rest IH]; intros index; simpl.
  - constructor.
  - destruct (answered q); [apply IH|].
    constructor; [apply IH | apply unansweredFrom_lower].
Qed.

Lemma unansweredFrom_nil (array : list Question) :
  forall index,
    unansweredFrom array index = [] <-> forallb answered array = true.
Proof.
  induction array as [|q rest IH]; intros index; simpl.
  - tauto.
  - destruct (answered q); simpl; [apply IH | split; discriminate].
Qed.

Lemma gradingRequests_app (xs ys : list Effect) :
  gradingRequests (xs ++ ys) = gradingRequests xs ++ gradingRequests ys.
Proof. apply flat_map_app. Qed.


Lemma stopped_fields (c : Component) :
  questions (stopped c) = questions c /\
  effects (stopped c) = effects c /\
  AttendeId (stopped c) = AttendeId c /\
  examId (stopped c) = examId c /\
  currentQuestionIndex (stopped c) = currentQuestionIndex c /\
  questionList (stopped c) = questionList c /\
  showResult (stopped c) = showResult c /\
  timerInterval (stopped c) = timerInterval c.
Proof.
  unfold stopped, exec, clearInterval. destruct (timerInterval c) eqn:E; simpl;
    rewrite ?E; repeat split; reflexivity.
Qed.

Lemma clearInterval_run (c : Component) :
  clearInterval (timerInterval c) c = (Normal tt, stopped c).
Proof.
  unfold stopped, exec, clearInterval. destruct (timerInterval c); reflexivity.
Qed.

(** [handleSubmit] with a question left open: the list is rebuilt, a
    warning is logged, and the method returns. *)
Lemma handleSubmit_open (c : Component) :
  unansweredFrom (questions c) 0 <> [] ->
  handleSubmit c =
  (Normal tt,
   set_effects (effects c ++ [console warn "Unanswered questions:"])
     (set_unansweredQuestionNumbers
        (map JS.Fin (unansweredFrom (questions c) 0)) (stopped c))).
Proof.
  intros Hopen. unfold handleSubmit, bind, this.
  rewrite clearInterval_run. unfold assign at 1.
  destruct (stopped_fields c) as (Hq & He & _).
  cbn [questions set_unansweredQuestionNumbers].
  rewrite Hq.
  destruct (handleSubmit_forEach_run (questions c) 0 []
              (set_unansweredQuestionNumbers [] (stopped c))) as [acc' ->].
  cbn [unansweredQuestionNumbers set_unansweredQuestionNumbers app].
  destruct (unansweredFrom (questions c) 0) as [|n l] eqn:E; [congruence|].
  cbn [map List.length]. 
  replace (0 <? Z.of_nat (S (List.length (map JS.Fin l)))) with true
    by (symmetry; apply Z.ltb_lt; lia).
  unfold emit, assign. cbn [effects set_effects set_unansweredQuestionNumbers].
  rewrite He. reflexivity.
Qed.

(** [handleSubmit] with every question answered: the view is hidden, the
    toast is shown and the grading request is sent. *)
Lemma handleSubmit_complete (c : Component) :
  unansweredFrom (questions c) 0 = [] ->
  handleSubmit c =
  (Normal tt,
   set_effects
     (effects c ++ [successToast; evaluateExamResult (AttendeId c) (examId c)])
     (set_questionList false (set_unansweredQuestionNumbers [] (stopped c)))).
Proof.
  intros Hall. unfold handleSubmit, bind, this.
  rewrite clearInterval_run. unfold assign at 1.
  destruct (stopped_fields c) as (Hq & He & Ha & Hx & _).
  cbn [questions set_unansweredQuestionNumbers].
  rewrite Hq.
  destruct (handleSubmit_forEach_run (questions c) 0 []
              (set_unansweredQuestionNumbers [] (stopped c))) as [acc' ->].
  rewrite Hall.
  cbn [unansweredQuestionNumbers set_unansweredQuestionNumbers app map List.length].
  cbn [Z.of_nat Z.ltb Z.compare].
  unfold showNotification, emit, assign.
  cbn [effects set_effects set_unansweredQuestionNumbers set_questionList
       AttendeId examId].
  rewrite He, Ha, Hx, <- app_assoc. reflexivity.
Qed.

Lemma open_question_found (array : list Question) :
  (exists q, In q array /\ answered q = false) ->
  forall index, unansweredFrom array index <> [].
Proof.
  intros [q [Hin Hq]] index Hnil.
  apply unansweredFrom_nil in Hnil.
  rewrite forallb_forall in Hnil. specialize (Hnil q Hin). congruence.
Qed.

Lemma all_answered_none_open (array : list Question) :
  (forall q, In q array -> answered q = true) ->
  forall index, unansweredFrom array index = [].
Proof.
  intros H index. apply unansweredFrom_nil, forallb_forall. exact H.
Qed.

Lemma unansweredFrom_0 (array : list Question) (n : Z) :
  In n (unansweredFrom array 0) <-> unansweredAt array n.
Proof.
  rewrite unansweredFrom_In. unfold unansweredAt.
  replace (n - 0 - 1) with (n - 1) by lia.
  split; intros [H1 H2]; (split; [lia | exact H2]).
Qed.

(** ** Submission *)

(** C1. Whenever some question has no selected option, [handleSubmit]
    returns without sending a grading request, and it leaves in
    [unansweredQuestionNumbers] exactly the display numbers (1-based
    positions) of the questions with no selected option, in ascending
    order. *)
Theorem submit_with_open_question (c : Component) :
  (exists q, In q (questions c) /\ answered q = false) ->
  exists c',
    handleSubmit c = (Normal tt, c') /\
    (exists sent, effects c' = effects c ++ sent /\ gradingRequests sent = []) /\
    (exists numbers,
        unansweredQuestionNumbers c' = map JS.Fin numbers /\
        StronglySorted Z.lt numbers /\
        forall n, In n numbers <-> unansweredAt (questions c) n).
Proof.
  intros Hopen. eexists. split.
  - apply handleSubmit_open. apply open_question_found. exact Hopen.
  - split.
    + exists [console warn "Unanswered questions:"]. split; reflexivity.
    + exists (unansweredFrom (questions c) 0). split; [reflexivity|]. split.
      * apply unansweredFrom_sorted.
      * apply unansweredFrom_0.
Qed.

Lemma submit_with_open_question_witness :
  exists c',
    handleSubmit two_of_three = (Normal tt, c') /\
    (exists sent, effects c' = effects two_of_three ++ sent /\ gradingRequests sent = []) /\
    (exists numbers,
        unansweredQuestionNumbers c' = map JS.Fin numbers /\
        StronglySorted Z.lt numbers /\
        forall n, In n numbers <-> unansweredAt (questions two_of_three) n).
Proof.
  apply (submit_with_open_question two_of_three).
  exists (loaded_question (quiz_question "Q-2" ["p"; "q"; "r"]) 1).
  split; [simpl; auto | reflexivity].
Defined.

(** C2. Whenever every question has a selected option, [handleSubmit] sends
    exactly one grading request, carrying the attendee and the exam
    identifier, hides the question view and shows the success toast. *)
Theorem submit_when_all_answered (c : Component) :
  (forall q, In q (questions c) -> answered q = true) ->
  exists c',
    handleSubmit c = (Normal tt, c') /\
    (exists sent,
        effects c' = effects c ++ sent /\
        gradingRequests sent = [(AttendeId c, examId c)] /\
        In successToast sent) /\
    questionList c' = false.
Proof.
  intros Hall. eexists. split.
  - apply handleSubmit_complete. apply all_answered_none_open. exact Hall.
  - split; [|reflexivity].
    exists [successToast; evaluateExamResult (AttendeId c) (examId c)].
    split; [reflexivity|]. split; [reflexivity | simpl; auto].
Qed.

Lemma submit_when_all_answered_witness :
  exists c',
    handleSubmit all_three = (Normal tt, c') /\
    (exists sent,
        effects c' = effects all_three ++ sent /\
        gradingRequests sent = [(AttendeId all_three, examId all_three)] /\
        In successToast sent) /\
    questionList c' = false.
Proof.
  apply (submit_when_all_answered all_three).
  intros q Hq. simpl in Hq.
  destruct Hq as [<-|[<-|[<-|[]]]]; reflexivity.
Defined.

(** ** The countdown *)

Lemma ticks_S (h : nat) (n : nat) (c : Component) :
  ticks h (S n) c = step (ticks h n c) (tick h).
Proof.
  unfold ticks, run. replace (S n) with (n + 1)%nat by lia.
  rewrite repeat_app, fold_left_app. reflexivity.
Qed.


Lemma live_existsb (h : nat) (live : list nat) :
  existsb (Nat.eqb h) live = true <-> In h live.
Proof.
  rewrite existsb_exists. split.
  - intros [x [Hin Hx]]. apply Nat.eqb_eq in Hx. subst. exact Hin.
  - intros Hin. exists h. split; [exact Hin | apply Nat.eqb_refl].
Qed.

(** A tick of an interval that is not scheduled does nothing. *)
Lemma tick_cleared (h : nat) (c : Component) :
  ~ In h (intervals c) -> step c (tick h) = c.
Proof.
  intros Hout. unfold step, exec, dispatch, bind, this.
  destruct (existsb (Nat.eqb h) (intervals c)) eqn:E.
  - apply live_existsb in E. contradiction.
  - reflexivity.
Qed.

Lemma ticks_cleared (h : nat) (n : nat) (c : Component) :
  ~ In h (intervals c) -> ticks h n c = c.
Proof.
  intros Hout. induction n as [|n IH].
  - reflexivity.
  - rewrite ticks_S, IH. apply tick_cleared. exact Hout.
Qed.

(** A tick of the running timer with time left. *)
Lemma tick_running (h : nat) (c : Component) (m s : Z) :
  In h (intervals c) ->
  step (set_time m s c) (tick h) =
  if s =? 0 then
    if m =? 0 then step (set_time 0 0 c) (tick h)
    else set_time (m - 1) 59 c
  else set_time m (s - 1) c.
Proof.
  intros Hlive.
  destruct (s =? 0) eqn:Es.
  - destruct (m =? 0) eqn:Em.
    + apply Z.eqb_eq in Es, Em. subst. reflexivity.
    + unfold step, exec, dispatch, bind, this. cbn [intervals set_time].
      apply live_existsb in Hlive. rewrite Hlive.
      unfold startTimer_callback, bind, this. cbn [seconds minutes set_time].
      rewrite Es. cbn [seconds minutes set_time]. rewrite Em. reflexivity.
  - unfold step, exec, dispatch, bind, this. cbn [intervals set_time].
    apply live_existsb in Hlive. rewrite Hlive.
    unfold startTimer_callback, bind, this. cbn [seconds minutes set_time].
    rewrite Es. reflexivity.
Qed.

Lemma set_time_same (c : Component) :
  set_time (minutes c) (seconds c) c = c.
Proof. destruct c; reflexivity. Qed.


Lemma stopped_set_effects (es : list Effect) (c : Component) :
  stopped (set_effects es c) = set_effects es (stopped c).
Proof.
  unfold stopped, exec, clearInterval. cbn [timerInterval set_effects].
  destruct (timerInterval c); reflexivity.
Qed.

Lemma stopped_intervals (c : Component) (h : nat) :
  timerInterval c = Some h ->
  intervals (stopped c) = List.filter (fun i => negb (Nat.eqb i h)) (intervals c).
Proof.
  intros E. unfold stopped, exec, clearInterval. rewrite E. reflexivity.
Qed.

Lemma stopped_not_live (c : Component) (h : nat) :
  timerInterval c = Some h -> ~ In h (intervals (stopped c)).
Proof.
  intros E Hin. rewrite (stopped_intervals c h E) in Hin.
  apply filter_In in Hin. destruct Hin as [_ Hne].
  rewrite Nat.eqb_refl in Hne. discriminate.
Qed.

Lemma filter_twice {A : Type} (p : A -> bool) (l : list A) :
  List.filter p (List.filter p l) = List.filter p l.
Proof.
  induction l as [|x l IH]; simpl.
  - reflexivity.
  - destruct (p x) eqn:E; simpl; rewrite ?E; congruence.
Qed.

Lemma stopped_stopped (c : Component) : stopped (stopped c) = stopped c.
Proof.
  unfold stopped, exec, clearInterval.
  destruct c as [a x qs i u sr r co w ql m s [h|] live nx es]; simpl.
  - unfold set_timer. simpl. rewrite filter_twice. reflexivity.
  - reflexivity.
Qed.

(** [handleTimeUp] while a question is open: the alert, the aborted
    submission, and the toast all the same. *)
Lemma handleTimeUp_open (c : Component) :
  unansweredFrom (questions c) 0 <> [] ->
  handleTimeUp c =
  (Normal tt,
   set_effects
     (effects c ++ [timeUpAlert; console warn "Unanswered questions:"; successToast])
     (set_unansweredQuestionNumbers
        (map JS.Fin (unansweredFrom (questions c) 0)) (stopped c))).
Proof.
  intros Hopen. unfold handleTimeUp, bind. unfold emit at 1, assign.
  rewrite handleSubmit_open by exact Hopen.
  unfold showNotification, emit, assign.
  rewrite stopped_set_effects.
  cbn [effects set_effects set_unansweredQuestionNumbers questions
       AttendeId examId currentQuestionIndex unansweredQuestionNumbers
       showResult result correct wrong questionList minutes seconds
       timerInterval intervals nextInterval].
  rewrite <- !app_assoc. reflexivity.
Qed.

(** [handleTimeUp] with everything answered: the submission goes through,
    and the toast is shown a second time. *)
Lemma handleTimeUp_complete (c : Component) :
  unansweredFrom (questions c) 0 = [] ->
  handleTimeUp c =
  (Normal tt,
   set_effects
     (effects c ++ [timeUpAlert; successToast;
                    evaluateExamResult (AttendeId c) (examId c); successToast])
     (set_questionList false
        (set_unansweredQuestionNumbers [] (stopped c)))).
Proof.
  intros Hall. unfold handleTimeUp, bind. unfold emit at 1, assign.
  rewrite handleSubmit_complete by exact Hall.
  unfold showNotification, emit, assign.
  rewrite stopped_set_effects.
  cbn [effects set_effects set_unansweredQuestionNumbers questions
       AttendeId examId currentQuestionIndex unansweredQuestionNumbers
       showResult result correct wrong questionList minutes seconds
       timerInterval intervals nextInterval set_questionList].
  rewrite <- !app_assoc. reflexivity.
Qed.

(** The tick at 0:00 clears the interval and calls [handleTimeUp]. *)
Lemma tick_expiry (h : nat) (c : Component) :
  minutes c = 0 -> seconds c = 0 -> In h (intervals c) ->
  step c (tick h) = exec handleTimeUp (stopped c).
Proof.
  intros Hm Hs Hlive. unfold step, exec at 1, dispatch, bind, this.
  apply live_existsb in Hlive. rewrite Hlive.
  unfold startTimer_callback, bind, this. rewrite Hs. cbn [Z.eqb].
  rewrite Hm. cbn [Z.eqb]. rewrite clearInterval_run. reflexivity.
Qed.





(** C9. When the timer expires while some question has no selected option,
    the tick clears the interval, the forced submission returns before the
    grading request, and [handleTimeUp] still shows the success toast: the
    effects of the tick are the alert, the warning and the toast, the
    question view and the result view stay as they were, and no later tick
    does anything. *)
Theorem expiry_with_open_question (c : Component) (h : nat) :
  minutes c = 0 -> seconds c = 0 ->
  timerInterval c = Some h -> In h (intervals c) ->
  (exists q, In q (questions c) /\ answered q = false) ->
  let c' := step c (tick h) in
  effects c' =
    effects c ++ [timeUpAlert; console warn "Unanswered questions:"; successToast] /\
  gradingRequests (effects c') = gradingRequests (effects c) /\
  ~ In h (intervals c') /\
  questionList c' = questionList c /\
  showResult c' = showResult c /\
  (forall n, ticks h n c' = c').
Proof.
  intros Hm Hs Ht Hlive Hopen c'.
  assert (Hc' : c' = exec handleTimeUp (stopped c))
    by (apply tick_expiry; assumption).
  destruct (stopped_fields c) as (Hq & He & Ha & Hx & Hi & Hl & Hr & Ht').
  pose proof (stopped_not_live c h Ht) as Hout.
  unfold exec in Hc'.
  rewrite handleTimeUp_open in Hc'
    by (rewrite Hq; apply open_question_found; exact Hopen).
  cbn [snd] in Hc'.
  assert (Heff : effects c' =
    effects c ++ [timeUpAlert; console warn "Unanswered questions:"; successToast]).
  { rewrite Hc'. cbn [effects set_effects]. rewrite He. reflexivity. }
  assert (Hout' : ~ In h (intervals c')).
  { rewrite Hc'. cbn [intervals set_effects set_unansweredQuestionNumbers].
    rewrite stopped_stopped. exact Hout. }
  split; [exact Heff|]. split.
  { rewrite Heff, gradingRequests_app. simpl. apply app_nil_r. }
  split; [exact Hout'|]. split.
  { rewrite Hc'. cbn [questionList set_effects set_unansweredQuestionNumbers].
    rewrite stopped_stopped. exact Hl. }
  split.
  { rewrite Hc'. cbn [showResult set_effects set_unansweredQuestionNumbers].
    rewrite stopped_stopped. exact Hr. }
  intros n. apply ticks_cleared. exact Hout'.
Qed.

Lemma expiry_with_open_question_witness :
  let c := ticks 1 120 started_quiz in
  let c' := step c (tick 1) in
  effects c' =
    effects c ++ [timeUpAlert; console warn "Unanswered questions:"; successToast] /\
  gradingRequests (effects c') = gradingRequests (effects c) /\
  ~ In 1%nat (intervals c') /\
  questionList c' = questionList c /\
  showResult c' = showResult c /\
  (forall n, ticks 1 n c' = c').
Proof.
  apply (expiry_with_open_question (ticks 1 120 started_quiz) 1%nat).
  - vm_compute. reflexivity.
  - vm_compute. reflexivity.
  - vm_compute. reflexivity.
  - vm_compute. auto.
  - exists (loaded_question (quiz_question "Q-2" ["p"; "q"; "r"]) 1).
    split; [vm_compute; auto | reflexivity].
Defined.

(** ** Invariants of computations *)

Section Invariant.
Variable I : Component -> Prop.

Lemma invariant_ret {A : Type} (a : A) : invariant I (ret a).
Proof. intros c H. exact H. Qed.

Lemma invariant_throw {A : Type} (e : string) : invariant I (@throw A e).
Proof. intros c H. exact H. Qed.

Lemma invariant_this {A : Type} (field : Component -> A) :
  invariant I (this field).
Proof. intros c H. exact H. Qed.

Lemma invariant_bind {A B : Type} (m : M A) (k : A -> M B) :
  invariant I m -> (forall a, invariant I (k a)) -> invariant I (bind m k).
Proof.
  intros Hm Hk c H. unfold bind. specialize (Hm c H).
  destruct (m c) as [[a|e] c']; simpl in *.
  - apply Hk. exact Hm.
  - exact Hm.
Qed.

Lemma invariant_assign (f : Component -> Component) :
  (forall c, I c -> I (f c)) -> invariant I (assign f).
Proof. intros Hf c H. apply Hf. exact H. Qed.

Lemma invariant_emit (e : Effect) :
  (forall c es, I c -> I (set_effects es c)) -> invariant I (emit e).
Proof. intros He c H. apply He. exact H. Qed.
End Invariant.

(** One step through a computation whose pieces keep the invariant. *)
Ltac invariant_step :=
  lazymatch goal with
  | |- invariant _ (bind _ _) => apply invariant_bind; [ | intros ? ]
  | |- invariant _ (ret _) => apply invariant_ret
  | |- invariant _ (throw _) => apply invariant_throw
  | |- invariant _ (this _) => apply invariant_this
  | |- invariant _ (emit _) => apply invariant_emit; intros ? ? ?
  | |- invariant _ (assign _) => apply invariant_assign; intros ? ?
  | |- invariant _ (if ?b then _ else _) => destruct b
  | |- invariant _ (match ?x with _ => _ end) => destruct x
  end.

(** ** The unanswered list has no duplicates *)

Lemma includes_In (n : JS.Number) (l : list JS.Number) :
  existsb (JS.sameValueZero n) l = false -> ~ In n l.
Proof.
  intros H Hin.
  assert (existsb (JS.sameValueZero n) l = true) as Ht.
  { apply existsb_exists. exists n. split; [exact Hin|].
    unfold JS.sameValueZero, JS.Number_eqb.
    destruct n as [|b|z]; [reflexivity | destruct b; reflexivity | apply Z.eqb_refl]. }
  congruence.
Qed.

Lemma NoDup_snoc {A : Type} (l : list A) (x : A) :
  NoDup l -> ~ In x l -> NoDup (l ++ [x]).
Proof.
  intros Hl Hx. apply NoDup_app.
  - exact Hl.
  - repeat constructor. intros [].
  - intros y Hy [<-|[]]. contradiction.
Qed.

Lemma NoDup_filter' {A : Type} (p : A -> bool) (l : list A) :
  NoDup l -> NoDup (List.filter p l).
Proof.
  induction 1 as [|x l Hx Hl IH]; simpl.
  - constructor.
  - destruct (p x); [|exact IH]. constructor; [|exact IH].
    intros Hin. apply filter_In in Hin. tauto.
Qed.

Lemma updateUnansweredTracking_noDuplicates :
  invariant noDuplicates updateUnansweredTracking.
Proof.
  intros c H. unfold updateUnansweredTracking, currentQuestion, bind, this.
  destruct (JS.at_ (questions c) (currentQuestionIndex c)) as [q|]; simpl.
  - destruct (existsb checked (optionList q)); simpl.
    + unfold noDuplicates. simpl. apply NoDup_filter'. exact H.
    + destruct (existsb _ (unansweredQuestionNumbers c)) eqn:E; simpl.
      * exact H.
      * unfold noDuplicates. simpl. apply NoDup_snoc; [exact H|].
        apply includes_In. exact E.
  - exact H.
Qed.

Lemma mutateCurrentQuestion_invariant (I : Component -> Prop) (f : Question -> Question) :
  (forall c qs, I c -> I (set_questions qs c)) ->
  invariant I (mutateCurrentQuestion f).
Proof.
  intros HI. unfold mutateCurrentQuestion.
  invariant_step; [invariant_step|].
  destruct a as [| |z]; repeat invariant_step; try apply HI; assumption.
Qed.

Lemma currentQuestion_invariant (I : Component -> Prop) :
  invariant I currentQuestion.
Proof.
  unfold currentQuestion. repeat invariant_step.
Qed.

Lemma sorted_NoDup (l : list Z) : StronglySorted Z.lt l -> NoDup l.
Proof.
  induction 1 as [|x l Hs IH Hx].
  - constructor.
  - constructor; [|exact IH]. intros Hin.
    rewrite Forall_forall in Hx. specialize (Hx x Hin). lia.
Qed.

Lemma NoDup_map_Fin (l : list Z) : NoDup l -> NoDup (map JS.Fin l).
Proof.
  induction 1 as [|x l Hx Hl IH]; simpl; constructor; [|exact IH].
  intros Hin. apply in_map_iff in Hin. destruct Hin as [y [E Hy]].
  injection E as ->. contradiction.
Qed.

Lemma handleSubmit_noDuplicates : invariant noDuplicates handleSubmit.
Proof.
  intros c _.
  assert (Hnd : NoDup (map JS.Fin (unansweredFrom (questions c) 0))).
  { apply NoDup_map_Fin, sorted_NoDup, unansweredFrom_sorted. }
  destruct (unansweredFrom (questions c) 0) as [|n l] eqn:E.
  - rewrite handleSubmit_complete by exact E. constructor.
  - rewrite handleSubmit_open by (rewrite E; discriminate).
    rewrite E. exact Hnd.
Qed.

Lemma dispatch_noDuplicates (e : Event) : invariant noDuplicates (dispatch e).
Proof.
  destruct e as [ | result | | op | h | | | resultData | ]; simpl.
  - unfold connectedCallback, loadQuestions, startTimer, setInterval.
    repeat invariant_step; assumption.
  - unfold loadQuestions_then. repeat invariant_step; assumption.
  - unfold loadQuestions_catch. repeat invariant_step; assumption.
  - destruct op; simpl.
    + unfold handleOptionChange.
      repeat first
        [ apply updateUnansweredTracking_noDuplicates
        | apply currentQuestion_invariant
        | apply mutateCurrentQuestion_invariant; intros ? ? ?
        | invariant_step ]; assumption.
    + unfold handleReview.
      repeat first
        [ apply currentQuestion_invariant
        | apply mutateCurrentQuestion_invariant; intros ? ? ?
        | invariant_step ]; assumption.
    + unfold handleNext.
      repeat first
        [ apply updateUnansweredTracking_noDuplicates | invariant_step ];
        assumption.
    + unfold handlePrevious.
      repeat first
        [ apply updateUnansweredTracking_noDuplicates | invariant_step ];
        assumption.
    + unfold handleBadgeClick. repeat invariant_step; assumption.
    + apply handleSubmit_noDuplicates.
  - unfold startTimer_callback, handleTimeUp, showNotification, clearInterval.
    repeat first [ apply handleSubmit_noDuplicates | invariant_step ];
      assumption.
  - unfold saveOrUpdateResponse_then. repeat invariant_step; assumption.
  - unfold saveOrUpdateResponse_catch. repeat invariant_step; assumption.
  - unfold evaluateExamResult_then. repeat invariant_step; assumption.
  - unfold evaluateExamResult_catch. repeat invariant_step; assumption.
Qed.

(** C10. In every state the component can reach from its initial state,
    by mounting, loading, any user operation, timer ticks and the answers
    of the Apex calls, [unansweredQuestionNumbers] lists no display number
    twice. *)
Theorem unanswered_list_has_no_duplicates
  (attendee exam : option string) (events : list Event) :
  noDuplicates (run events (init attendee exam)).
Proof.
  unfold run.
  assert (H0 : noDuplicates (init attendee exam)) by constructor.
  revert H0. generalize (init attendee exam) as c.
  induction events as [|e events IH]; intros c Hc; simpl.
  - exact Hc.
  - apply IH. apply dispatch_noDuplicates. exact Hc.
Qed.

(** ** Loading *)


Lemma map_from_length {A B : Type} (f : A -> nat -> B) (array : list A) :
  forall start, List.length (JS.map_from f start array) = List.length array.
Proof.
  induction array as [|x rest IH]; intros start; simpl; [|rewrite IH]; reflexivity.
Qed.


Lemma loaded_questions (attendee exam : option string)
  (result : list Apex.QuestionDTO) :
  questions (loaded attendee exam result) = JS.mapi loaded_question result.
Proof. reflexivity. Qed.





(** ** Jumping to a question *)

Lemma roundToDouble_safe (z : Z) :
  Z.abs z <= JS.MAX_SAFE -> JS.roundToDouble z = JS.Fin z.
Proof.
  intros H. unfold JS.roundToDouble.
  apply Z.leb_le in H. rewrite H. reflexivity.
Qed.

Lemma handleBadgeClick_run (s : string) (c : Component) :
  handleBadgeClick s c =
  (Normal tt,
   if JS.isNaN (JS.parseInt s) then c
   else set_currentQuestionIndex (JS.plus (JS.parseInt s) (-1)) c).
Proof.
  unfold handleBadgeClick. destruct (JS.isNaN (JS.parseInt s)); reflexivity.
Qed.

(** C8, as stated, fails in two places.  Above 2^53: the input
    9007199254740994 parses to that very integer, but the Number one less
    than it does not exist, and the subtraction rounds to the integer two
    less.  And where the sequence is short: with a single question loaded,
    the input 3 puts the pointer at 2, where there is no question. *)
Lemma jump_misses :
  (JS.parseInt "9007199254740994" = JS.Fin 9007199254740994 /\
   currentQuestionIndex (exec (handleBadgeClick "9007199254740994") fresh_quiz)
     = JS.Fin 9007199254740992 /\
   currentQuestionIndex (exec (handleBadgeClick "9007199254740994") fresh_quiz)
     <> JS.Fin (9007199254740994 - 1)) /\
  (currentQuestionIndex
     (exec (handleBadgeClick "3")
        (loaded (Some "ATT-7") (Some "EXAM-1") twin_options)) = JS.Fin 2 /\
   get_currentQuestion
     (exec (handleBadgeClick "3")
        (loaded (Some "ATT-7") (Some "EXAM-1") twin_options)) = None).
Proof.
  assert (E : currentQuestionIndex
                (exec (handleBadgeClick "9007199254740994") fresh_quiz)
              = JS.Fin 9007199254740992) by (vm_compute; reflexivity).
  split.
  - split; [vm_compute; reflexivity|]. split; [exact E|].
    rewrite E. intros H. discriminate H.
  - split; reflexivity.
Qed.

(** C8, amended. In every state, [handleBadgeClick] with an input that
    parses to an integer [n] between -2^53 (excluded) and 2^53 sets the
    pointer to [n - 1] and changes nothing else, and with an input that
    parses to NaN it changes nothing at all; so the input 3 makes the third
    question the current one wherever there is a third question, and the
    input abc leaves the pointer where it was. *)
Theorem jump_sets_pointer (c : Component) (s : string) (n : Z) :
  JS.parseInt s = JS.Fin n ->
  - JS.MAX_SAFE < n <= JS.MAX_SAFE ->
  handleBadgeClick s c = (Normal tt, set_currentQuestionIndex (JS.Fin (n - 1)) c) /\
  (forall s', JS.parseInt s' = JS.NaN -> handleBadgeClick s' c = (Normal tt, c)) /\
  currentQuestionIndex (exec (handleBadgeClick "3") c) = JS.Fin 2 /\
  (forall q, nth_error (questions c) 2 = Some q ->
             get_currentQuestion (exec (handleBadgeClick "3") c) = Some q) /\
  exec (handleBadgeClick "abc") c = c.
Proof.
  intros Hs Hn. split.
  - rewrite handleBadgeClick_run, Hs. cbn [JS.isNaN JS.plus].
    rewrite roundToDouble_safe by (unfold JS.MAX_SAFE in *; lia).
    f_equal.
  - split.
    + intros s' Hs'. rewrite handleBadgeClick_run, Hs'. reflexivity.
    + split; [reflexivity|]. split; [|reflexivity].
      intros q Hq. unfold get_currentQuestion, exec.
      rewrite handleBadgeClick_run.
      change (JS.parseInt "3") with (JS.Fin 3).
      cbn [JS.isNaN snd]. exact Hq.
Qed.

Lemma jump_sets_pointer_witness :
  handleBadgeClick "2" fresh_quiz =
    (Normal tt, set_currentQuestionIndex (JS.Fin (2 - 1)) fresh_quiz) /\
  (forall s', JS.parseInt s' = JS.NaN ->
              handleBadgeClick s' fresh_quiz = (Normal tt, fresh_quiz)) /\
  currentQuestionIndex (exec (handleBadgeClick "3") fresh_quiz) = JS.Fin 2 /\
  (forall q, nth_error (questions fresh_quiz) 2 = Some q ->
             get_currentQuestion (exec (handleBadgeClick "3") fresh_quiz) = Some q) /\
  exec (handleBadgeClick "abc") fresh_quiz = fresh_quiz.
Proof.
  apply (jump_sets_pointer fresh_quiz "2" 2).
  - reflexivity.
  - unfold JS.MAX_SAFE. lia.
Defined.

(** ** Selecting an option *)

Lemma current_index (c : Component) (q : Question) :
  get_currentQuestion c = Some q ->
  exists z, currentQuestionIndex c = JS.Fin z /\ 0 <= z /\
            nth_error (questions c) (Z.to_nat z) = Some q.
Proof.
  unfold get_currentQuestion, JS.at_.
  destruct (currentQuestionIndex c) as [| |z]; try discriminate.
  destruct (0 <=? z) eqn:E; [|discriminate].
  intros H. exists z. apply Z.leb_le in E. auto.
Qed.

Lemma currentQuestion_run (c : Component) (q : Question) :
  get_currentQuestion c = Some q -> currentQuestion c = (Normal q, c).
Proof.
  unfold get_currentQuestion, currentQuestion, bind, this. intros ->. reflexivity.
Qed.

Lemma update_nth {A : Type} (f : A -> A) (array : list A) :
  forall i x, nth_error array i = Some x ->
              nth_error (JS.update array i f) i = Some (f x).
Proof.
  induction array as [|y rest IH]; intros [|i] x H; simpl in *; try discriminate.
  - congruence.
  - apply IH. exact H.
Qed.

Lemma update_length {A : Type} (f : A -> A) (array : list A) :
  forall i, List.length (JS.update array i f) = List.length array.
Proof.
  induction array as [|y rest IH]; intros [|i]; simpl; try reflexivity.
  rewrite IH. reflexivity.
Qed.

(** A write through the reference to the current question. *)
Lemma mutateCurrentQuestion_run (f : Question -> Question) (c : Component)
  (q : Question) :
  get_currentQuestion c = Some q ->
  exists c',
    mutateCurrentQuestion f c = (Normal tt, c') /\
    get_currentQuestion c' = Some (f q) /\
    currentQuestionIndex c' = currentQuestionIndex c /\
    unansweredQuestionNumbers c' = unansweredQuestionNumbers c /\
    AttendeId c' = AttendeId c /\ examId c' = examId c.
Proof.
  intros H. destruct (current_index c q H) as [z (Hz & Hpos & Hn)].
  unfold mutateCurrentQuestion, bind, this. rewrite Hz.
  apply Z.leb_le in Hpos. rewrite Hpos.
  eexists. split; [reflexivity|].
  unfold get_currentQuestion. cbn [questions currentQuestionIndex
    unansweredQuestionNumbers AttendeId examId set_questions].
  rewrite Hz. unfold JS.at_. rewrite Hpos.
  rewrite (update_nth f _ _ _ Hn). auto.
Qed.

(** Tracking changes the list of unanswered numbers and nothing else, and
    it returns when there is a current question. *)
Lemma updateUnansweredTracking_frame (c : Component) :
  exists r l, updateUnansweredTracking c = (r, set_unansweredQuestionNumbers l c) /\
              (forall q, get_currentQuestion c = Some q -> r = Normal tt).
Proof.
  unfold updateUnansweredTracking, currentQuestion, get_currentQuestion, bind, this.
  destruct (JS.at_ (questions c) (currentQuestionIndex c)) as [q|]; simpl.
  - destruct (existsb checked (optionList q)); simpl.
    + unfold assign. do 2 eexists. split; [reflexivity | reflexivity].
    + destruct (existsb _ (unansweredQuestionNumbers c)); simpl.
      * exists (Normal tt), (unansweredQuestionNumbers c).
        rewrite set_unanswered_same. split; reflexivity.
      * unfold assign. do 2 eexists. split; [reflexivity | reflexivity].
  - exists (Throw "TypeError: Cannot read properties of undefined"),
           (unansweredQuestionNumbers c).
    rewrite set_unanswered_same. split; [reflexivity | discriminate].
Qed.

Lemma existsb_mark (v : string) (options : list Option_) :
  In v (map value options) ->
  existsb checked (map (mark v) options) = true.
Proof.
  intros H. apply in_map_iff in H. destruct H as [o [Hv Ho]].
  apply existsb_exists. exists (mark v o). split.
  - apply in_map. exact Ho.
  - unfold mark. cbn [checked]. rewrite Hv. apply String.eqb_refl.
Qed.

(** C6. When the current question is marked for review, with the review
    badge, [handleOptionChange] with the value of one of its options
    returns and leaves that question with the answered badge and no longer
    marked for review. *)
Theorem answering_clears_review (c : Component) (q : Question) (v : string) :
  get_currentQuestion c = Some q ->
  reviewed q = true ->
  badgeClass q = "badge review" ->
  In v (map value (optionList q)) ->
  exists c' q',
    handleOptionChange v c = (Normal tt, c') /\
    get_currentQuestion c' = Some q' /\
    badgeClass q' = "badge answered" /\
    reviewed q' = false /\
    optionList q' = map (mark v) (optionList q).
Proof.
  intros Hq Hrev _ Hv.
  unfold handleOptionChange, bind.
  rewrite (currentQuestion_run c q Hq).
  destruct (mutateCurrentQuestion_run
              (fun q => set_optionList (map (mark v) (optionList q)) q) c q Hq)
    as [c1 (-> & Hq1 & _ & _ & Ha1 & Hx1)].
  rewrite (currentQuestion_run c1 _ Hq1).
  cbn [optionList set_optionList reviewed].
  rewrite (existsb_mark v _ Hv), Hrev.
  destruct (mutateCurrentQuestion_run (set_reviewed false) c1 _ Hq1)
    as [c2 (-> & Hq2 & _ & _ & Ha2 & Hx2)].
  destruct (mutateCurrentQuestion_run (set_badgeClass "badge answered") c2 _ Hq2)
    as [c3 (-> & Hq3 & _ & _ & Ha3 & Hx3)].
  destruct (updateUnansweredTracking_frame c3) as [r [l [-> Hr]]].
  rewrite (Hr _ Hq3).
  destruct (find_some_existsb checked _ (existsb_mark v _ Hv)) as [selected ->].
  unfold this, emit, assign.
  eexists. eexists. split; [reflexivity|].
  split; [|split; [|split]].
  - unfold get_currentQuestion in *.
    cbn [questions currentQuestionIndex set_effects set_unansweredQuestionNumbers].
    exact Hq3.
  - reflexivity.
  - reflexivity.
  - reflexivity.
Qed.

Lemma answering_clears_review_witness :
  exists c' q',
    handleOptionChange "q" reviewing_second = (Normal tt, c') /\
    get_currentQuestion c' = Some q' /\
    badgeClass q' = "badge answered" /\
    reviewed q' = false /\
    optionList q' =
      map (mark "q") (optionList (set_badgeClass "badge review"
          (set_reviewed true (loaded_question (quiz_question "Q-2" ["p"; "q"; "r"]) 1)))).
Proof.
  apply (answering_clears_review reviewing_second
           (set_badgeClass "badge review"
              (set_reviewed true
                 (loaded_question (quiz_question "Q-2" ["p"; "q"; "r"]) 1))) "q").
  - reflexivity.
  - reflexivity.
  - reflexivity.
  - simpl. auto.
Defined.

(** ** One selected option per question *)

Lemma mark_values (v : string) (options : list Option_) :
  map value (map (mark v) options) = map value options.
Proof.
  induction options as [|o rest IH]; simpl; [|rewrite IH]; reflexivity.
Qed.

Lemma mark_none (v : string) (options : list Option_) :
  ~ In v (map value options) ->
  List.filter checked (map (mark v) options) = [].
Proof.
  induction options as [|o rest IH]; simpl; intros H.
  - reflexivity.
  - destruct (String.eqb_spec (value o) v) as [E|E].
    + exfalso. apply H. left. exact E.
    + apply IH. intros Hin. apply H. right. exact Hin.
Qed.

(** Marking options that differ in value selects at most one. *)
Lemma mark_at_most_one (v : string) (options : list Option_) :
  NoDup (map value options) ->
  (List.length (List.filter checked (map (mark v) options)) <= 1)%nat.
Proof.
  induction options as [|o rest IH]; simpl; intros H.
  - lia.
  - inversion H as [|x l Hx Hrest]; subst.
    destruct (String.eqb_spec (value o) v) as [E|E].
    + simpl. subst v. rewrite (mark_none _ _ Hx). simpl. lia.
    + apply IH. exact Hrest.
Qed.

Lemma mark_singleChoice (v : string) (q : Question) :
  singleChoice q ->
  singleChoice (set_optionList (map (mark v) (optionList q)) q).
Proof.
  intros [Hd _]. unfold singleChoice, selectedCount.
  cbn [optionList set_optionList]. rewrite mark_values.
  split; [exact Hd | apply mark_at_most_one; exact Hd].
Qed.

Lemma update_Forall {A : Type} (P : A -> Prop) (f : A -> A) (array : list A) :
  (forall x, P x -> P (f x)) ->
  forall i, Forall P array -> Forall P (JS.update array i f).
Proof.
  intros Hf. induction array as [|x rest IH]; intros [|i] H; simpl;
    try exact H; inversion H; subst; constructor; auto.
Qed.

Lemma mutateCurrentQuestion_singleChoice (f : Question -> Question) :
  (forall q, singleChoice q -> singleChoice (f q)) ->
  invariant allSingleChoice (mutateCurrentQuestion f).
Proof.
  intros Hf. unfold mutateCurrentQuestion.
  invariant_step; [invariant_step|].
  destruct a as [| |z]; repeat invariant_step; try assumption.
  unfold allSingleChoice. cbn [questions set_questions].
  apply update_Forall; assumption.
Qed.

Lemma handleSubmit_questions (c : Component) :
  questions (snd (handleSubmit c)) = questions c.
Proof.
  destruct (stopped_fields c) as (Hq & _).
  destruct (unansweredFrom (questions c) 0) as [|n l] eqn:E.
  - rewrite handleSubmit_complete by exact E. exact Hq.
  - rewrite handleSubmit_open by (rewrite E; discriminate). exact Hq.
Qed.

Lemma updateUnansweredTracking_singleChoice :
  invariant allSingleChoice updateUnansweredTracking.
Proof.
  intros c H. destruct (updateUnansweredTracking_frame c) as [r [l [-> _]]].
  exact H.
Qed.

Lemma perform_singleChoice (op : Operation) :
  invariant allSingleChoice (perform op).
Proof.
  destruct op; simpl.
  - unfold handleOptionChange.
    repeat first
      [ apply updateUnansweredTracking_singleChoice
      | apply currentQuestion_invariant
      | apply mutateCurrentQuestion_singleChoice;
        first [ apply mark_singleChoice | intros ? H; exact H ]
      | invariant_step ]; assumption.
  - unfold handleReview.
    repeat first
      [ apply currentQuestion_invariant
      | apply mutateCurrentQuestion_singleChoice; intros ? H; exact H
      | invariant_step ]; assumption.
  - unfold handleNext.
    repeat first
      [ apply updateUnansweredTracking_singleChoice | invariant_step ];
      assumption.
  - unfold handlePrevious.
    repeat first
      [ apply updateUnansweredTracking_singleChoice | invariant_step ];
      assumption.
  - unfold handleBadgeClick. repeat invariant_step; assumption.
  - intros c H. unfold allSingleChoice. rewrite handleSubmit_questions. exact H.
Qed.

Lemma map_from_Forall {A B : Type} (P : B -> Prop) (f : A -> nat -> B)
  (array : list A) :
  (forall x i, In x array -> P (f x i)) ->
  forall start, Forall P (JS.map_from f start array).
Proof.
  induction array as [|x rest IH]; intros Hf start; simpl; constructor.
  - apply Hf. left. reflexivity.
  - apply IH. intros y i Hy. apply Hf. right. exact Hy.
Qed.

Lemma loaded_option_values (options : list string) :
  forall start, map value (JS.map_from loaded_option start options) = options.
Proof.
  induction options as [|o rest IH]; intros start; simpl; [|rewrite IH]; reflexivity.
Qed.

Lemma loaded_option_unchecked (options : list string) :
  forall start,
    List.filter checked (JS.map_from loaded_option start options) = [].
Proof.
  induction options as [|o rest IH]; intros start; simpl; [|rewrite IH]; reflexivity.
Qed.

Lemma loaded_singleChoice (attendee exam : option string)
  (result : list Apex.QuestionDTO) :
  Forall (fun dto => NoDup (Apex.options dto)) result ->
  allSingleChoice (loaded attendee exam result).
Proof.
  intros H. unfold allSingleChoice. rewrite loaded_questions.
  apply map_from_Forall. intros dto i Hin.
  rewrite Forall_forall in H. specialize (H dto Hin).
  unfold singleChoice, selectedCount, loaded_question, JS.mapi.
  cbn [optionList]. rewrite loaded_option_values, loaded_option_unchecked.
  split; [exact H | simpl; lia].
Qed.

Lemma operate_invariant (I : Component -> Prop) (ops : list Operation) :
  (forall op, In op ops -> invariant I (perform op)) ->
  forall c, I c -> I (operate ops c).
Proof.
  unfold operate. induction ops as [|op ops IH]; intros Hops c Hc; simpl.
  - exact Hc.
  - apply IH.
    + intros op' Hin. apply Hops. right. exact Hin.
    + apply (Hops op); [left; reflexivity | exact Hc].
Qed.

(** C4, as stated, fails when two options of a question carry the same
    text: an option is found by its value, so selecting that text selects
    both. *)
Lemma twin_options_both_selected :
  ~ atMostOneSelected
      (operate [selectOption "x"] (loaded (Some "ATT-7") (Some "EXAM-1") twin_options)) /\
  map (fun q => map checked (optionList q))
    (questions (operate [selectOption "x"]
                  (loaded (Some "ATT-7") (Some "EXAM-1") twin_options))) =
  [[true; true]].
Proof.
  split; [|reflexivity].
  intros H. inversion H as [|q l Hq _]; subst.
  vm_compute in Hq. lia.
Qed.

(** C4, amended. When the options of each loaded question differ in their
    text, then in every state reached from the freshly loaded sequence by
    selectOption, markForReview, next, previous, jumpTo and submit, every
    question has at most one selected option. *)
Theorem at_most_one_option_selected (attendee exam : option string)
  (result : list Apex.QuestionDTO) (ops : list Operation) :
  Forall (fun dto => NoDup (Apex.options dto)) result ->
  atMostOneSelected (operate ops (loaded attendee exam result)).
Proof.
  intros Hdistinct.
  assert (H : allSingleChoice (operate ops (loaded attendee exam result))).
  { apply operate_invariant.
    - intros op _. apply perform_singleChoice.
    - apply loaded_singleChoice. exact Hdistinct. }
  unfold atMostOneSelected. unfold allSingleChoice in H.
  eapply Forall_impl; [|exact H]. intros q [_ Hq]. exact Hq.
Qed.

Lemma at_most_one_option_selected_witness :
  atMostOneSelected
    (operate [selectOption "x"; selectOption "y"; markForReview; next;
              selectOption "r"; jumpTo "3"; previous; submit]
       (loaded (Some "ATT-7") (Some "EXAM-1") quiz)).
Proof.
  apply (at_most_one_option_selected (Some "ATT-7") (Some "EXAM-1") quiz
           [selectOption "x"; selectOption "y"; markForReview; next;
            selectOption "r"; jumpTo "3"; previous; submit]).
  repeat constructor; simpl; intuition discriminate.
Defined.

(** ** The pointer under navigation *)

Lemma pointerValid_current (c : Component) :
  pointerValid c -> exists q, get_currentQuestion c = Some q.
Proof.
  intros [z [Hz Hr]].
  destruct (nth_error (questions c) (Z.to_nat z)) as [q|] eqn:E.
  - exists q. unfold get_currentQuestion, JS.at_. rewrite Hz.
    replace (0 <=? z) with true by (symmetry; apply Z.leb_le; lia). exact E.
  - apply nth_error_None in E. lia.
Qed.

(** [handleNext] with a valid pointer: tracking, then one step forward
    unless the pointer is at the last question. *)
Lemma handleNext_run (c : Component) (z : Z) :
  currentQuestionIndex c = JS.Fin z ->
  0 <= z < Z.of_nat (List.length (questions c)) ->
  exists l,
    handleNext c =
    (Normal tt,
     if z <? Z.of_nat (List.length (questions c)) - 1
     then set_currentQuestionIndex (JS.roundToDouble (z + 1))
            (set_unansweredQuestionNumbers l c)
     else set_unansweredQuestionNumbers l c).
Proof.
  intros Hz Hr.
  destruct (pointerValid_current c (ex_intro _ z (conj Hz Hr))) as [q Hq].
  destruct (updateUnansweredTracking_frame c) as [r [l [Hrun Hret]]].
  exists l. unfold handleNext, bind. rewrite Hrun, (Hret q Hq).
  unfold this. cbn [currentQuestionIndex questions set_unansweredQuestionNumbers].
  rewrite Hz. cbn [JS.ltb JS.plus].
  destruct (z <? Z.of_nat (List.length (questions c)) - 1); reflexivity.
Qed.

(** [handlePrevious] with a valid pointer: tracking, then one step back
    unless the pointer is at the first question. *)
Lemma handlePrevious_run (c : Component) (z : Z) :
  currentQuestionIndex c = JS.Fin z ->
  0 <= z < Z.of_nat (List.length (questions c)) ->
  exists l,
    handlePrevious c =
    (Normal tt,
     if 0 <? z
     then set_currentQuestionIndex (JS.roundToDouble (z + -1))
            (set_unansweredQuestionNumbers l c)
     else set_unansweredQuestionNumbers l c).
Proof.
  intros Hz Hr.
  destruct (pointerValid_current c (ex_intro _ z (conj Hz Hr))) as [q Hq].
  destruct (updateUnansweredTracking_frame c) as [r [l [Hrun Hret]]].
  exists l. unfold handlePrevious, bind. rewrite Hrun, (Hret q Hq).
  unfold this. cbn [currentQuestionIndex questions set_unansweredQuestionNumbers].
  rewrite Hz. cbn [JS.ltb JS.plus].
  destruct (0 <? z); reflexivity.
Qed.

Lemma navigation_keeps_pointer (len : nat) (op : Operation) :
  Z.of_nat len <= JS.MAX_ARRAY_LENGTH ->
  navigationInRange len op = true ->
  invariant (navigable len) (perform op).
Proof.
  intros Hlen Hop c [Hl [z [Hz Hr]]].
  assert (2 ^ 32 - 1 <= 2 ^ 53) by (vm_compute; discriminate).
  unfold JS.MAX_ARRAY_LENGTH in Hlen.
  destruct op; simpl in Hop; try discriminate; simpl perform.
  - (* next *)
    destruct (handleNext_run c z Hz Hr) as [l ->]. cbn [snd].
    destruct (z <? Z.of_nat (List.length (questions c)) - 1) eqn:E.
    + apply Z.ltb_lt in E.
      rewrite roundToDouble_safe by (unfold JS.MAX_SAFE; lia).
      split; [exact Hl|]. exists (z + 1). split; [reflexivity|].
      cbn [questions set_currentQuestionIndex set_unansweredQuestionNumbers]. lia.
    + split; [exact Hl|]. exists z. split; [exact Hz | exact Hr].
  - (* previous *)
    destruct (handlePrevious_run c z Hz Hr) as [l ->]. cbn [snd].
    destruct (0 <? z) eqn:E.
    + apply Z.ltb_lt in E.
      rewrite roundToDouble_safe by (unfold JS.MAX_SAFE; lia).
      split; [exact Hl|]. exists (z + -1). split; [reflexivity|].
      cbn [questions set_currentQuestionIndex set_unansweredQuestionNumbers]. lia.
    + split; [exact Hl|]. exists z. split; [exact Hz | exact Hr].
  - (* jumpTo *)
    rewrite handleBadgeClick_run. cbn [snd].
    destruct (JS.parseInt displayNumber) as [| |n]; try discriminate.
    { (* no number: the jump does nothing *)
      cbn [JS.isNaN]. split; [exact Hl|]. exists z. split; [exact Hz | exact Hr]. }
    apply andb_prop in Hop. destruct Hop as [H1 H2].
    apply Z.leb_le in H1, H2.
    cbn [JS.isNaN JS.plus].
    rewrite roundToDouble_safe by (unfold JS.MAX_SAFE; lia).
    split; [exact Hl|]. exists (n + -1). split; [reflexivity|].
    cbn [questions set_currentQuestionIndex]. lia.
Qed.

(** C5, as stated, fails on a jump past the end: the badge handler takes
    any number, so from the three loaded questions the input 7 puts the
    pointer at 6. *)
Lemma jump_leaves_the_sequence :
  quiz <> [] /\
  Forall (fun op => navigation op = true) [jumpTo "7"] /\
  currentQuestionIndex (operate [jumpTo "7"] fresh_quiz) = JS.Fin 6 /\
  ~ pointerValid (operate [jumpTo "7"] fresh_quiz).
Proof.
  split; [discriminate|]. split; [repeat constructor|]. split; [reflexivity|].
  intros [z [Hz Hr]].
  change (currentQuestionIndex (operate [jumpTo "7"] fresh_quiz)) with (JS.Fin 6) in Hz.
  injection Hz as <-. vm_compute in Hr. destruct Hr as [_ Hr]. discriminate Hr.
Qed.

(** C5, amended. After a non-empty question sequence has been loaded (an
    array, so of fewer than 2^32 questions), in every state reached by
    next, previous and jumpTo with an input that either does not parse to
    a number or parses to a display number from 1 to the length of the
    sequence, the pointer satisfies 0 <= pointer < length. *)
Theorem pointer_stays_valid (attendee exam : option string)
  (result : list Apex.QuestionDTO) (ops : list Operation) :
  result <> [] ->
  Z.of_nat (List.length result) <= JS.MAX_ARRAY_LENGTH ->
  Forall (fun op => navigationInRange (List.length result) op = true) ops ->
  pointerValid (operate ops (loaded attendee exam result)) /\
  List.length (questions (operate ops (loaded attendee exam result))) =
    List.length result.
Proof.
  intros Hne Hlen Hops.
  assert (H : navigable (List.length result)
                (operate ops (loaded attendee exam result))).
  { apply operate_invariant.
    - intros op Hin. rewrite Forall_forall in Hops.
      apply navigation_keeps_pointer; [exact Hlen | apply Hops; exact Hin].
    - split.
      + rewrite loaded_questions. apply map_from_length.
      + exists 0. split; [reflexivity|].
        rewrite loaded_questions. unfold JS.mapi. rewrite map_from_length.
        destruct result; [contradiction | simpl; lia]. }
  destruct H as [Hl Hp]. split; [exact Hp | exact Hl].
Qed.

Lemma pointer_stays_valid_witness :
  pointerValid
    (operate [next; next; next; jumpTo "1"; previous; jumpTo "abc"; jumpTo "3";
            jumpTo ""; previous]
       (loaded (Some "ATT-7") (Some "EXAM-1") quiz)) /\
  List.length
    (questions
       (operate [next; next; next; jumpTo "1"; previous; jumpTo "abc"; jumpTo "3";
            jumpTo ""; previous]
          (loaded (Some "ATT-7") (Some "EXAM-1") quiz))) =
  List.length quiz.
Proof.
  apply (pointer_stays_valid (Some "ATT-7") (Some "EXAM-1") quiz
           [next; next; next; jumpTo "1"; previous; jumpTo "abc"; jumpTo "3";
            jumpTo ""; previous]).
  - discriminate.
  - vm_compute. discriminate.
  - repeat constructor.
Defined.

(** * Further properties of the handlers *)

(** ** Writes to the current question, exactly *)

Lemma currentQuestion_throw (c : Component) :
  get_currentQuestion c = None ->
  currentQuestion c =
  (Throw "TypeError: Cannot read properties of undefined", c).
Proof.
  unfold get_currentQuestion, currentQuestion, bind, this. intros ->. reflexivity.
Qed.

Lemma bind_run {A B : Type} (m : M A) (k : A -> M B) (c c' : Component) (a : A) :
  m c = (Normal a, c') -> bind m k c = k a c'.
Proof. intros H. unfold bind. rewrite H. reflexivity. Qed.

Lemma bind_throw {A B : Type} (m : M A) (k : A -> M B) (c c' : Component)
  (e : string) :
  m c = (Throw e, c') -> bind m k c = (Throw e, c').
Proof. intros H. unfold bind. rewrite H. reflexivity. Qed.

Lemma mutateCurrentQuestion_exact (f : Question -> Question) (c : Component)
  (z : Z) :
  currentQuestionIndex c = JS.Fin z -> 0 <= z ->
  mutateCurrentQuestion f c =
  (Normal tt, set_questions (JS.update (questions c) (Z.to_nat z) f) c).
Proof.
  intros Hz Hpos. unfold mutateCurrentQuestion, bind, this. rewrite Hz.
  apply Z.leb_le in Hpos. rewrite Hpos. reflexivity.
Qed.

Lemma update_update {A : Type} (f g : A -> A) (array : list A) :
  forall i, JS.update (JS.update array i f) i g = JS.update array i (fun x => g (f x)).
Proof.
  induction array as [|x rest IH]; intros [|i]; simpl; try reflexivity.
  rewrite IH. reflexivity.
Qed.

Lemma update_ext_at {A : Type} (f g : A -> A) (array : list A) :
  forall i x, nth_error array i = Some x -> f x = g x ->
              JS.update array i f = JS.update array i g.
Proof.
  induction array as [|y rest IH]; intros [|i] x H E; simpl in *; try discriminate.
  - injection H as ->. rewrite E. reflexivity.
  - rewrite (IH i x H E). reflexivity.
Qed.

Lemma update_other {A : Type} (f : A -> A) (array : list A) :
  forall i j, i <> j -> nth_error (JS.update array i f) j = nth_error array j.
Proof.
  induction array as [|y rest IH]; intros [|i] [|j] H; simpl; try reflexivity.
  - contradiction.
  - apply IH. intros E. apply H. rewrite E. reflexivity.
Qed.

Lemma current_after_update (f : Question -> Question) (c : Component)
  (z : Z) (q : Question) :
  currentQuestionIndex c = JS.Fin z -> 0 <= z ->
  nth_error (questions c) (Z.to_nat z) = Some q ->
  get_currentQuestion
    (set_questions (JS.update (questions c) (Z.to_nat z) f) c) = Some (f q).
Proof.
  intros Hz Hpos Hn. unfold get_currentQuestion.
  cbn [questions currentQuestionIndex set_questions]. rewrite Hz.
  unfold JS.at_. apply Z.leb_le in Hpos. rewrite Hpos.
  apply update_nth. exact Hn.
Qed.

Lemma find_mark (v : string) (options : list Option_) :
  List.find checked (map (mark v) options) =
  option_map (mark v) (List.find (fun o => String.eqb (value o) v) options).
Proof.
  induction options as [|o rest IH]; simpl.
  - reflexivity.
  - destruct (String.eqb (value o) v); [reflexivity | exact IH].
Qed.

(** [handleOptionChange] on a current question [q]: it returns, the
    question becomes [chosen v q], the pointer stays, and a save request is
    sent for the first option of value [v] if there is one. *)
Lemma handleOptionChange_run (v : string) (c : Component) (z : Z) (q : Question) :
  currentQuestionIndex c = JS.Fin z -> 0 <= z ->
  nth_error (questions c) (Z.to_nat z) = Some q ->
  exists c',
    handleOptionChange v c = (Normal tt, c') /\
    questions c' = JS.update (questions c) (Z.to_nat z) (chosen v) /\
    currentQuestionIndex c' = currentQuestionIndex c /\
    effects c' =
      effects c ++
      match optionOf v q with
      | Some o => [saveOrUpdateResponse (AttendeId c) (questionId q)
                     (labelPrefix o) (examId c)]
      | None => []
      end /\
    intervals c' = intervals c /\ timerInterval c' = timerInterval c /\
    questionList c' = questionList c.
Proof.
  intros Hz Hpos Hn.
  assert (Hq : get_currentQuestion c = Some q).
  { unfold get_currentQuestion, JS.at_. rewrite Hz.
    replace (0 <=? z) with true by (symmetry; apply Z.leb_le; exact Hpos).
    exact Hn. }
  set (f1 := fun q => set_optionList (map (mark v) (optionList q)) q).
  unfold handleOptionChange. fold f1.
  rewrite (bind_run _ _ c c q (currentQuestion_run c q Hq)).
  rewrite (bind_run _ _ _ _ tt (mutateCurrentQuestion_exact f1 c z Hz Hpos)).
  set (c1 := set_questions (JS.update (questions c) (Z.to_nat z) f1) c).
  assert (Hq1 : get_currentQuestion c1 = Some (f1 q))
    by (apply current_after_update; assumption).
  assert (Hz1 : currentQuestionIndex c1 = JS.Fin z) by exact Hz.
  assert (Hn1 : nth_error (questions c1) (Z.to_nat z) = Some (f1 q))
    by (apply update_nth; exact Hn).
  rewrite (bind_run _ _ _ _ _ (currentQuestion_run c1 _ Hq1)).
  (* the state after the badge and the review flag are written *)
  assert (Hbadge : exists c3,
    (if existsb checked (optionList (f1 q)) then
       bind (if reviewed (f1 q)
             then mutateCurrentQuestion (set_reviewed false)
             else ret tt)
         (fun _ => mutateCurrentQuestion (set_badgeClass "badge answered"))
     else
       mutateCurrentQuestion
         (set_badgeClass (if reviewed (f1 q) then "badge review"
                          else "badge unanswered"))) c1 = (Normal tt, c3) /\
    questions c3 = JS.update (questions c) (Z.to_nat z) (chosen v) /\
    currentQuestionIndex c3 = JS.Fin z /\
    effects c3 = effects c /\ AttendeId c3 = AttendeId c /\
    examId c3 = examId c /\ intervals c3 = intervals c /\
    timerInterval c3 = timerInterval c /\ questionList c3 = questionList c).
  { assert (Hchosen : forall g,
              g (f1 q) = chosen v q ->
              JS.update (questions c) (Z.to_nat z) (fun x => g (f1 x)) =
              JS.update (questions c) (Z.to_nat z) (chosen v)).
    { intros g Hg. apply (update_ext_at _ _ _ _ q Hn). exact Hg. }
    destruct (existsb checked (optionList (f1 q))) eqn:Ec.
    - destruct (reviewed (f1 q)) eqn:Er.
      + unfold bind.
        rewrite (mutateCurrentQuestion_exact (set_reviewed false) c1 z Hz1 Hpos).
        erewrite (mutateCurrentQuestion_exact _ _ z); [ | exact Hz1 | exact Hpos].
        eexists. split; [reflexivity|].
        cbn [questions set_questions]. unfold c1. cbn [questions set_questions].
        rewrite !update_update. split; [|repeat split; assumption].
        apply (Hchosen (fun x => set_badgeClass "badge answered" (set_reviewed false x))).
        unfold chosen. fold (f1 q). rewrite Ec, Er. reflexivity.
      + unfold bind, ret.
        rewrite (mutateCurrentQuestion_exact _ _ z Hz1 Hpos).
        eexists. split; [reflexivity|].
        cbn [questions set_questions]. unfold c1. cbn [questions set_questions].
        rewrite !update_update. split; [|repeat split; assumption].
        apply (Hchosen (fun x => set_badgeClass "badge answered" x)).
        unfold chosen. fold (f1 q). rewrite Ec, Er. reflexivity.
    - rewrite (mutateCurrentQuestion_exact _ _ z Hz1 Hpos).
      eexists. split; [reflexivity|].
      cbn [questions set_questions]. unfold c1. cbn [questions set_questions].
      rewrite !update_update. split; [|repeat split; assumption].
      apply (Hchosen (fun x => set_badgeClass
                                 (if reviewed (f1 q) then "badge review"
                                  else "badge unanswered") x)).
      unfold chosen. fold (f1 q). rewrite Ec. reflexivity. }
  destruct Hbadge as [c3 (Hrun3 & Hq3 & Hz3 & He3 & Ha3 & Hx3 & Hi3 & Ht3 & Hl3)].
  rewrite (bind_run _ _ _ _ _ Hrun3).
  assert (Hcur3 : get_currentQuestion c3 = Some (chosen v q)).
  { unfold get_currentQuestion, JS.at_. rewrite Hz3, Hq3.
    replace (0 <=? z) with true by (symmetry; apply Z.leb_le; exact Hpos).
    apply update_nth. exact Hn. }
  destruct (updateUnansweredTracking_frame c3) as [r [l [Hrun4 Hr]]].
  rewrite (Hr _ Hcur3) in Hrun4.
  rewrite (bind_run _ _ _ _ _ Hrun4).
  unfold f1 at 1. cbn [optionList set_optionList questionId].
  rewrite find_mark. unfold optionOf.
  destruct (List.find (fun o => String.eqb (value o) v) (optionList q)) as [o|];
    cbn [option_map].
  - unfold bind, this, emit, assign. eexists. split; [reflexivity|].
    cbn [questions currentQuestionIndex effects intervals timerInterval
         questionList AttendeId examId set_effects set_unansweredQuestionNumbers].
    rewrite Hq3, Hz3, Hz, He3, Ha3, Hx3, Hi3, Ht3, Hl3.
    repeat split.
  - unfold ret. eexists. split; [reflexivity|].
    cbn [questions currentQuestionIndex effects intervals timerInterval
         questionList set_unansweredQuestionNumbers].
    rewrite Hq3, Hz3, Hz, He3, Hi3, Ht3, Hl3, app_nil_r.
    repeat split.
Qed.

Lemma current_index_iff (c : Component) (z : Z) (q : Question) :
  currentQuestionIndex c = JS.Fin z -> 0 <= z ->
  nth_error (questions c) (Z.to_nat z) = Some q ->
  get_currentQuestion c = Some q.
Proof.
  intros Hz Hpos Hn. unfold get_currentQuestion, JS.at_. rewrite Hz.
  replace (0 <=? z) with true by (symmetry; apply Z.leb_le; exact Hpos).
  exact Hn.
Qed.

(** ** Selecting *)

(** X1. Selecting a value that one of the current question's options has
    returns normally and sends exactly one save request and nothing else:
    it carries the attendee, the question's identifier, the label prefix of
    the first option with that value, and the exam. *)
Theorem selection_sends_one_save (c : Component) (q : Question) (v : string)
  (o : Option_) :
  get_currentQuestion c = Some q ->
  optionOf v q = Some o ->
  exists c',
    handleOptionChange v c = (Normal tt, c') /\
    effects c' =
      effects c ++ [saveOrUpdateResponse (AttendeId c) (questionId q)
                      (labelPrefix o) (examId c)] /\
    get_currentQuestion c' = Some (chosen v q) /\
    badgeClass (chosen v q) = "badge answered" /\
    reviewed (chosen v q) = false.
Proof.
  intros Hq Ho. destruct (current_index c q Hq) as [z (Hz & Hpos & Hn)].
  destruct (handleOptionChange_run v c z q Hz Hpos Hn)
    as [c' (Hrun & Hqs & Hi & He & _)].
  exists c'. split; [exact Hrun|]. rewrite Ho in He. split; [exact He|].
  assert (Hex : existsb checked (map (mark v) (optionList q)) = true).
  { destruct (List.find checked (map (mark v) (optionList q))) eqn:E.
    - destruct (existsb checked (map (mark v) (optionList q))) eqn:X; [reflexivity|].
      apply find_none_existsb in X. congruence.
    - rewrite find_mark in E. unfold optionOf in Ho. rewrite Ho in E. discriminate. }
  split.
  - apply (current_index_iff c' z); [congruence | exact Hpos |].
    rewrite Hqs. apply update_nth. exact Hn.
  - unfold chosen. cbn [optionList set_optionList]. rewrite Hex.
    cbn [reviewed set_optionList].
    destruct (reviewed q) eqn:Er; split; try reflexivity.
    cbn [reviewed set_badgeClass set_optionList]. exact Er.
Qed.

Lemma selection_sends_one_save_witness :
  exists c',
    handleOptionChange "q" reviewing_second = (Normal tt, c') /\
    effects c' =
      effects reviewing_second ++
      [saveOrUpdateResponse (AttendeId reviewing_second) "Q-2"
         (labelPrefix (loaded_option "q" 1)) (examId reviewing_second)] /\
    get_currentQuestion c' =
      Some (chosen "q" (set_badgeClass "badge review"
              (set_reviewed true
                 (loaded_question (quiz_question "Q-2" ["p"; "q"; "r"]) 1)))) /\
    badgeClass (chosen "q" (set_badgeClass "badge review"
              (set_reviewed true
                 (loaded_question (quiz_question "Q-2" ["p"; "q"; "r"]) 1))))
      = "badge answered" /\
    reviewed (chosen "q" (set_badgeClass "badge review"
              (set_reviewed true
                 (loaded_question (quiz_question "Q-2" ["p"; "q"; "r"]) 1))))
      = false.
Proof.
  apply (selection_sends_one_save reviewing_second
           (set_badgeClass "badge review"
              (set_reviewed true
                 (loaded_question (quiz_question "Q-2" ["p"; "q"; "r"]) 1)))
           "q" (loaded_option "q" 1)).
  - reflexivity.
  - reflexivity.
Defined.

Lemma mark_unmatched (v : string) (options : list Option_) :
  List.find (fun o => String.eqb (value o) v) options = None ->
  existsb checked (map (mark v) options) = false /\
  Forall (fun o => checked o = false /\ cssClass o = "option")
    (map (mark v) options).
Proof.
  induction options as [|o rest IH]; simpl; intros H.
  - split; [reflexivity | constructor].
  - destruct (String.eqb (value o) v) eqn:E; [discriminate|].
    destruct (IH H) as [H1 H2]. split; [exact H1|].
    constructor; [|exact H2]. unfold mark. rewrite E. split; reflexivity.
Qed.

(** X2. Selecting a value that none of the current question's options has
    returns normally, sends nothing, and leaves every option of the
    question unselected with the plain class; the badge then follows the
    review flag, which stays as it was. *)
Theorem unmatched_selection_clears (c : Component) (q : Question) (v : string) :
  get_currentQuestion c = Some q ->
  optionOf v q = None ->
  exists c' q',
    handleOptionChange v c = (Normal tt, c') /\
    effects c' = effects c /\
    get_currentQuestion c' = Some q' /\
    Forall (fun o => checked o = false /\ cssClass o = "option") (optionList q') /\
    reviewed q' = reviewed q /\
    badgeClass q' = (if reviewed q then "badge review" else "badge unanswered").
Proof.
  intros Hq Ho. destruct (current_index c q Hq) as [z (Hz & Hpos & Hn)].
  destruct (handleOptionChange_run v c z q Hz Hpos Hn)
    as [c' (Hrun & Hqs & Hi & He & _)].
  exists c', (chosen v q). split; [exact Hrun|].
  rewrite Ho, app_nil_r in He. split; [exact He|].
  split.
  { apply (current_index_iff c' z); [congruence | exact Hpos |].
    rewrite Hqs. apply update_nth. exact Hn. }
  destruct (mark_unmatched v (optionList q) Ho) as [Hex Hall].
  unfold chosen. cbn [optionList set_optionList reviewed]. rewrite Hex.
  cbn [optionList set_badgeClass set_optionList reviewed badgeClass].
  split; [exact Hall | split; reflexivity].
Qed.

Lemma unmatched_selection_clears_witness :
  exists c' q',
    handleOptionChange "z" two_of_three = (Normal tt, c') /\
    effects c' = effects two_of_three /\
    get_currentQuestion c' = Some q' /\
    Forall (fun o => checked o = false /\ cssClass o = "option") (optionList q') /\
    reviewed q' =
      reviewed (chosen "a" (loaded_question (quiz_question "Q-3" ["a"; "b"; "c"; "d"]) 2)) /\
    badgeClass q' =
      (if reviewed (chosen "a" (loaded_question (quiz_question "Q-3" ["a"; "b"; "c"; "d"]) 2))
       then "badge review" else "badge unanswered").
Proof.
  apply (unmatched_selection_clears two_of_three
           (chosen "a" (loaded_question (quiz_question "Q-3" ["a"; "b"; "c"; "d"]) 2))
           "z").
  - reflexivity.
  - reflexivity.
Defined.

Lemma mark_mark (v w : string) (options : list Option_) :
  map (mark w) (map (mark v) options) = map (mark w) options.
Proof.
  induction options as [|o rest IH]; simpl; [|rewrite IH]; reflexivity.
Qed.

Lemma chosen_chosen (v w : string) (q : Question) :
  In w (map value (optionList q)) ->
  chosen w (chosen v q) = chosen w q.
Proof.
  intros Hw. pose proof (existsb_mark w _ Hw) as Hex.
  destruct q as [qid text options badge number rev].
  cbn [optionList] in Hex.
  unfold chosen. cbn [optionList set_optionList reviewed].
  destruct (existsb checked (map (mark v) options)); destruct rev;
    cbn [optionList set_optionList set_badgeClass set_reviewed reviewed
         questionId questionText badgeClass questionNumber];
    rewrite mark_mark, Hex; reflexivity.
Qed.

(** X3. The last selection wins: after selecting one value and then a value
    that an option of the current question has, the questions are what
    the second selection alone would have made of them. *)
Theorem last_selection_wins (c : Component) (q : Question) (v w : string) :
  get_currentQuestion c = Some q ->
  In w (map value (optionList q)) ->
  questions (operate [selectOption v; selectOption w] c) =
  questions (operate [selectOption w] c) /\
  get_currentQuestion (operate [selectOption v; selectOption w] c) =
  Some (chosen w q).
Proof.
  intros Hq Hw. destruct (current_index c q Hq) as [z (Hz & Hpos & Hn)].
  unfold operate. cbn [fold_left perform]. unfold exec.
  destruct (handleOptionChange_run v c z q Hz Hpos Hn)
    as [c1 (Hrun1 & Hqs1 & Hi1 & _)].
  rewrite Hrun1. cbn [snd].
  assert (Hn1 : nth_error (questions c1) (Z.to_nat z) = Some (chosen v q))
    by (rewrite Hqs1; apply update_nth; exact Hn).
  assert (Hz1 : currentQuestionIndex c1 = JS.Fin z) by congruence.
  destruct (handleOptionChange_run w c1 z _ Hz1 Hpos Hn1)
    as [c2 (Hrun2 & Hqs2 & Hi2 & _)].
  destruct (handleOptionChange_run w c z q Hz Hpos Hn)
    as [c2' (Hrun2' & Hqs2' & _)].
  rewrite Hrun2, Hrun2'. cbn [snd].
  assert (Hsame : questions c2 = questions c2').
  { rewrite Hqs2, Hqs1, Hqs2', update_update.
    apply (update_ext_at _ _ _ _ q Hn). apply chosen_chosen. exact Hw. }
  split; [exact Hsame|].
  apply (current_index_iff c2 z); [congruence | exact Hpos |].
  rewrite Hsame, Hqs2'. apply update_nth. exact Hn.
Qed.

Lemma last_selection_wins_witness :
  questions (operate [selectOption "p"; selectOption "r"] reviewing_second) =
  questions (operate [selectOption "r"] reviewing_second) /\
  get_currentQuestion (operate [selectOption "p"; selectOption "r"] reviewing_second) =
  Some (chosen "r" (set_badgeClass "badge review"
          (set_reviewed true
             (loaded_question (quiz_question "Q-2" ["p"; "q"; "r"]) 1)))).
Proof.
  apply (last_selection_wins reviewing_second
           (set_badgeClass "badge review"
              (set_reviewed true
                 (loaded_question (quiz_question "Q-2" ["p"; "q"; "r"]) 1)))
           "p" "r").
  - reflexivity.
  - simpl. auto.
Defined.

(** X4. The prefix that [handleOptionChange] reads back from a label the
    loader built is the loader's letter, whatever the option text is, a
    text with colons or blanks included: A to D for the first four options,
    and the text of [undefined] from the fifth on. *)
Theorem label_prefix_round_trip (text : string) (i : nat) :
  labelPrefix (loaded_option text i) =
  if (i <? 4)%nat then letter i else "undefined".
Proof.
  unfold labelPrefix, loaded_option. cbn [label].
  destruct i as [|[|[|[|i]]]]; try reflexivity.
  replace (nth_error labels (S (S (S (S i))))) with (@None string)
    by (destruct i; reflexivity).
  reflexivity.
Qed.

(** ** Marking for review *)

(** X5. Marking the current question for review returns normally, sets the
    review flag and the review badge, and leaves the options as they were:
    a question that was answered stays answered under the review badge.
    The other questions, the pointer, the unanswered list and the effects
    do not change. *)
Theorem review_keeps_selection (c : Component) (q : Question) :
  get_currentQuestion c = Some q ->
  exists c' q',
    handleReview c = (Normal tt, c') /\
    get_currentQuestion c' = Some q' /\
    badgeClass q' = "badge review" /\
    reviewed q' = true /\
    optionList q' = optionList q /\
    answered q' = answered q /\
    (forall j, JS.Fin (Z.of_nat j) <> currentQuestionIndex c ->
               nth_error (questions c') j = nth_error (questions c) j) /\
    currentQuestionIndex c' = currentQuestionIndex c /\
    unansweredQuestionNumbers c' = unansweredQuestionNumbers c /\
    effects c' = effects c.
Proof.
  intros Hq. destruct (current_index c q Hq) as [z (Hz & Hpos & Hn)].
  unfold handleReview.
  rewrite (bind_run _ _ _ _ _ (currentQuestion_run c q Hq)).
  rewrite (bind_run _ _ _ _ _
             (mutateCurrentQuestion_exact (set_reviewed true) c z Hz Hpos)).
  erewrite (mutateCurrentQuestion_exact _ _ z); [ | exact Hz | exact Hpos].
  cbn [questions set_questions]. rewrite update_update.
  eexists. exists (set_badgeClass "badge review" (set_reviewed true q)).
  split; [reflexivity|]. split.
  { apply (current_index_iff _ z); [exact Hz | exact Hpos |].
    cbn [questions set_questions].
    apply (update_nth (fun x => set_badgeClass "badge review" (set_reviewed true x))).
    exact Hn. }
  repeat split.
  intros j Hj. cbn [questions set_questions]. apply update_other.
  intros E. apply Hj. rewrite Hz, <- E. f_equal. lia.
Qed.

Lemma review_keeps_selection_witness :
  exists c' q',
    handleReview two_of_three = (Normal tt, c') /\
    get_currentQuestion c' = Some q' /\
    badgeClass q' = "badge review" /\
    reviewed q' = true /\
    optionList q' =
      optionList (chosen "a" (loaded_question (quiz_question "Q-3" ["a"; "b"; "c"; "d"]) 2)) /\
    answered q' =
      answered (chosen "a" (loaded_question (quiz_question "Q-3" ["a"; "b"; "c"; "d"]) 2)) /\
    (forall j, JS.Fin (Z.of_nat j) <> currentQuestionIndex two_of_three ->
               nth_error (questions c') j = nth_error (questions two_of_three) j) /\
    currentQuestionIndex c' = currentQuestionIndex two_of_three /\
    unansweredQuestionNumbers c' = unansweredQuestionNumbers two_of_three /\
    effects c' = effects two_of_three.
Proof.
  apply (review_keeps_selection two_of_three
           (chosen "a" (loaded_question (quiz_question "Q-3" ["a"; "b"; "c"; "d"]) 2))).
  reflexivity.
Defined.

(** ** Without a current question *)

Lemma updateUnansweredTracking_throw (c : Component) :
  get_currentQuestion c = None ->
  updateUnansweredTracking c =
  (Throw "TypeError: Cannot read properties of undefined", c).
Proof.
  intros H. unfold updateUnansweredTracking.
  unfold bind at 1. unfold this at 1.
  apply bind_throw. apply currentQuestion_throw. exact H.
Qed.

(** X6. When the pointer is at no question (nothing is loaded, or a jump
    went outside the sequence), selecting, marking for review, next and
    previous each throw a TypeError and change nothing: the pointer stays
    where it is, and only a jump moves it again. *)
Theorem without_question_handlers_throw (c : Component) (v : string) :
  get_currentQuestion c = None ->
  handleOptionChange v c =
    (Throw "TypeError: Cannot read properties of undefined", c) /\
  handleReview c =
    (Throw "TypeError: Cannot read properties of undefined", c) /\
  handleNext c =
    (Throw "TypeError: Cannot read properties of undefined", c) /\
  handlePrevious c =
    (Throw "TypeError: Cannot read properties of undefined", c).
Proof.
  intros H. repeat split.
  - unfold handleOptionChange. apply bind_throw, currentQuestion_throw, H.
  - unfold handleReview. apply bind_throw, currentQuestion_throw, H.
  - unfold handleNext. apply bind_throw, updateUnansweredTracking_throw, H.
  - unfold handlePrevious. apply bind_throw, updateUnansweredTracking_throw, H.
Qed.

Lemma without_question_handlers_throw_witness :
  handleOptionChange "x" lost_quiz =
    (Throw "TypeError: Cannot read properties of undefined", lost_quiz) /\
  handleReview lost_quiz =
    (Throw "TypeError: Cannot read properties of undefined", lost_quiz) /\
  handleNext lost_quiz =
    (Throw "TypeError: Cannot read properties of undefined", lost_quiz) /\
  handlePrevious lost_quiz =
    (Throw "TypeError: Cannot read properties of undefined", lost_quiz).
Proof.
  apply (without_question_handlers_throw lost_quiz "x").
  reflexivity.
Defined.

(** ** Tracking *)

Lemma Number_eqb_eq (a b : JS.Number) : JS.Number_eqb a b = true <-> a = b.
Proof.
  destruct a as [|x|x], b as [|y|y]; simpl; split; intros H;
    try discriminate; try reflexivity.
  - apply Bool.eqb_prop in H. congruence.
  - injection H as ->. apply Bool.eqb_reflx.
  - apply Z.eqb_eq in H. congruence.
  - injection H as ->. apply Z.eqb_refl.
Qed.

Lemma roundToDouble_not_NaN (z : Z) : JS.roundToDouble z <> JS.NaN.
Proof.
  unfold JS.roundToDouble.
  destruct (Z.abs z <=? JS.MAX_SAFE); [discriminate|].
  match goal with |- (if ?b then _ else _) <> _ => destruct b end; discriminate.
Qed.

Lemma strictEq_eq (a b : JS.Number) :
  b <> JS.NaN -> (JS.strictEq a b = true <-> a = b).
Proof.
  intros Hb. unfold JS.strictEq. split.
  - intros H. apply andb_prop in H. destruct H as [_ H].
    apply Number_eqb_eq. exact H.
  - intros ->. destruct b; [contradiction | |]; simpl.
    + apply Bool.eqb_reflx.
    + apply Z.eqb_refl.
Qed.

(** X7. Tracking, with a current question at index [z], returns normally
    and brings the list in line with that question: afterwards its number
    is listed exactly when none of its options is selected.  The other
    numbers stay listed or unlisted as they were, and nothing but the list
    changes. *)
Theorem tracking_follows_selection (c : Component) (z : Z) (q : Question) :
  currentQuestionIndex c = JS.Fin z ->
  get_currentQuestion c = Some q ->
  exists l,
    updateUnansweredTracking c = (Normal tt, set_unansweredQuestionNumbers l c) /\
    (In (JS.plus (JS.Fin z) 1) l <-> answered q = false) /\
    (forall m, m <> JS.plus (JS.Fin z) 1 ->
               (In m l <-> In m (unansweredQuestionNumbers c))).
Proof.
  intros Hz Hq.
  assert (Hqn : JS.plus (JS.Fin z) 1 <> JS.NaN) by apply roundToDouble_not_NaN.
  unfold updateUnansweredTracking.
  unfold bind at 1. unfold this at 1. rewrite Hz.
  rewrite (bind_run _ _ _ _ _ (currentQuestion_run c q Hq)).
  fold (answered q). destruct (answered q) eqn:Ea; cbn [negb].
  - exists (List.filter
              (fun num => negb (JS.strictEq num (JS.plus (JS.Fin z) 1)))
              (unansweredQuestionNumbers c)).
    split; [reflexivity|]. split.
    + split; [|discriminate]. intros Hin. apply filter_In in Hin.
      destruct Hin as [_ Hne].
      rewrite (proj2 (strictEq_eq _ _ Hqn) eq_refl) in Hne. discriminate.
    + intros m Hm. rewrite filter_In. split; [tauto|].
      intros Hin. split; [exact Hin|].
      destruct (JS.strictEq m (JS.plus (JS.Fin z) 1)) eqn:E; [|reflexivity].
      apply strictEq_eq in E; [contradiction | exact Hqn].
  - unfold bind at 1. unfold this at 1.
    destruct (existsb (JS.sameValueZero (JS.plus (JS.Fin z) 1))
                (unansweredQuestionNumbers c)) eqn:E; cbn [negb].
    + exists (unansweredQuestionNumbers c). rewrite set_unanswered_same.
      split; [reflexivity|]. split; [|tauto].
      split; [reflexivity|]. intros _.
      apply existsb_exists in E. destruct E as [x [Hin Hx]].
      apply Number_eqb_eq in Hx. subst x. exact Hin.
    + exists (unansweredQuestionNumbers c ++ [JS.plus (JS.Fin z) 1]).
      split; [reflexivity|]. split.
      * split; [reflexivity|]. intros _. apply in_or_app. right. left. reflexivity.
      * intros m Hm. rewrite in_app_iff. cbn [In]. split; [|tauto].
        intros [H|[H|[]]]; [exact H | exfalso; apply Hm; symmetry; exact H].
Qed.

Lemma tracking_follows_selection_witness :
  exists l,
    updateUnansweredTracking reviewing_second =
      (Normal tt, set_unansweredQuestionNumbers l reviewing_second) /\
    (In (JS.plus (JS.Fin 1) 1) l <->
     answered (set_badgeClass "badge review"
                 (set_reviewed true
                    (loaded_question (quiz_question "Q-2" ["p"; "q"; "r"]) 1)))
       = false) /\
    (forall m, m <> JS.plus (JS.Fin 1) 1 ->
               (In m l <-> In m (unansweredQuestionNumbers reviewing_second))).
Proof.
  apply (tracking_follows_selection reviewing_second 1
           (set_badgeClass "badge review"
              (set_reviewed true
                 (loaded_question (quiz_question "Q-2" ["p"; "q"; "r"]) 1)))).
  - reflexivity.
  - reflexivity.
Defined.

(** ** Navigation and the buttons *)

Lemma handleNext_pointer (c : Component) (z : Z) :
  currentQuestionIndex c = JS.Fin z ->
  0 <= z < Z.of_nat (List.length (questions c)) ->
  Z.of_nat (List.length (questions c)) <= JS.MAX_ARRAY_LENGTH ->
  exists c',
    handleNext c = (Normal tt, c') /\
    questions c' = questions c /\
    currentQuestionIndex c' =
      (if z <? Z.of_nat (List.length (questions c)) - 1
       then JS.Fin (z + 1) else JS.Fin z).
Proof.
  intros Hz Hr Hlen. unfold JS.MAX_ARRAY_LENGTH in Hlen.
  assert (2 ^ 32 - 1 <= 2 ^ 53) by (vm_compute; discriminate).
  destruct (handleNext_run c z Hz Hr) as [l ->].
  eexists. split; [reflexivity|].
  destruct (z <? Z.of_nat (List.length (questions c)) - 1) eqn:E.
  - rewrite roundToDouble_safe by (unfold JS.MAX_SAFE; lia).
    split; reflexivity.
  - split; [reflexivity | exact Hz].
Qed.

Lemma handlePrevious_pointer (c : Component) (z : Z) :
  currentQuestionIndex c = JS.Fin z ->
  0 <= z < Z.of_nat (List.length (questions c)) ->
  Z.of_nat (List.length (questions c)) <= JS.MAX_ARRAY_LENGTH ->
  exists c',
    handlePrevious c = (Normal tt, c') /\
    questions c' = questions c /\
    currentQuestionIndex c' = (if 0 <? z then JS.Fin (z - 1) else JS.Fin z).
Proof.
  intros Hz Hr Hlen. unfold JS.MAX_ARRAY_LENGTH in Hlen.
  assert (2 ^ 32 - 1 <= 2 ^ 53) by (vm_compute; discriminate).
  destruct (handlePrevious_run c z Hz Hr) as [l ->].
  eexists. split; [reflexivity|].
  destruct (0 <? z) eqn:E.
  - rewrite roundToDouble_safe by (unfold JS.MAX_SAFE; lia).
    split; [reflexivity|]. cbn [currentQuestionIndex set_currentQuestionIndex].
    f_equal.
  - split; [reflexivity | exact Hz].
Qed.

(** X8. With the pointer at a question (of an array, so of fewer than 2^32
    questions), next and previous return normally and move the pointer
    exactly as the buttons show: next goes one question forward unless the
    submit button is shown (the last question), previous goes one back
    exactly when the previous button is shown (not the first question).
    The questions are untouched. *)
Theorem navigation_follows_buttons (c : Component) (z : Z) :
  currentQuestionIndex c = JS.Fin z ->
  0 <= z < Z.of_nat (List.length (questions c)) ->
  Z.of_nat (List.length (questions c)) <= JS.MAX_ARRAY_LENGTH ->
  (exists c',
      handleNext c = (Normal tt, c') /\
      questions c' = questions c /\
      currentQuestionIndex c' =
        (if showSubmit c then JS.Fin z else JS.Fin (z + 1))) /\
  (exists c',
      handlePrevious c = (Normal tt, c') /\
      questions c' = questions c /\
      currentQuestionIndex c' =
        (if showPrevious c then JS.Fin (z - 1) else JS.Fin z)).
Proof.
  intros Hz Hr Hlen. split.
  - destruct (handleNext_pointer c z Hz Hr Hlen) as [c' (Hrun & Hq & Hp)].
    exists c'. split; [exact Hrun|]. split; [exact Hq|]. rewrite Hp.
    unfold showSubmit. rewrite Hz. unfold JS.strictEq. cbn [JS.isNaN negb andb JS.Number_eqb].
    destruct (Z.ltb_spec z (Z.of_nat (List.length (questions c)) - 1));
      destruct (Z.eqb_spec z (Z.of_nat (List.length (questions c)) - 1));
      try reflexivity; lia.
  - destruct (handlePrevious_pointer c z Hz Hr Hlen) as [c' (Hrun & Hq & Hp)].
    exists c'. split; [exact Hrun|]. split; [exact Hq|]. rewrite Hp.
    unfold showPrevious. rewrite Hz. reflexivity.
Qed.

Lemma navigation_follows_buttons_witness :
  (exists c',
      handleNext two_of_three = (Normal tt, c') /\
      questions c' = questions two_of_three /\
      currentQuestionIndex c' =
        (if showSubmit two_of_three then JS.Fin 2 else JS.Fin (2 + 1))) /\
  (exists c',
      handlePrevious two_of_three = (Normal tt, c') /\
      questions c' = questions two_of_three /\
      currentQuestionIndex c' =
        (if showPrevious two_of_three then JS.Fin (2 - 1) else JS.Fin 2)).
Proof.
  apply (navigation_follows_buttons two_of_three 2).
  - reflexivity.
  - vm_compute. split; [discriminate | reflexivity].
  - vm_compute. discriminate.
Defined.

(** X9. Away from the ends, next and previous undo each other: with the
    pointer at a question that is not the last, next and then previous
    puts the pointer back, and with the pointer at a question that is not
    the first, so does previous and then next. *)
Theorem next_and_previous_cancel (c : Component) (z : Z) :
  currentQuestionIndex c = JS.Fin z ->
  0 <= z < Z.of_nat (List.length (questions c)) ->
  Z.of_nat (List.length (questions c)) <= JS.MAX_ARRAY_LENGTH ->
  (z < Z.of_nat (List.length (questions c)) - 1 ->
   currentQuestionIndex (operate [next; previous] c) = JS.Fin z) /\
  (0 < z ->
   currentQuestionIndex (operate [previous; next] c) = JS.Fin z).
Proof.
  intros Hz Hr Hlen. unfold operate. cbn [fold_left perform]. unfold exec. split.
  - intros Hlast.
    destruct (handleNext_pointer c z Hz Hr Hlen) as [c1 (-> & Hq1 & Hp1)].
    cbn [snd].
    replace (z <? Z.of_nat (List.length (questions c)) - 1) with true in Hp1
      by (symmetry; apply Z.ltb_lt; exact Hlast).
    destruct (handlePrevious_pointer c1 (z + 1) Hp1) as [c2 (-> & _ & Hp2)];
      [rewrite Hq1; lia | rewrite Hq1; exact Hlen |].
    cbn [snd]. rewrite Hp2.
    replace (0 <? z + 1) with true by (symmetry; apply Z.ltb_lt; lia).
    f_equal. lia.
  - intros Hfirst.
    destruct (handlePrevious_pointer c z Hz Hr Hlen) as [c1 (-> & Hq1 & Hp1)].
    cbn [snd].
    replace (0 <? z) with true in Hp1 by (symmetry; apply Z.ltb_lt; exact Hfirst).
    destruct (handleNext_pointer c1 (z - 1) Hp1) as [c2 (-> & _ & Hp2)];
      [rewrite Hq1; lia | rewrite Hq1; exact Hlen |].
    cbn [snd]. rewrite Hp2, Hq1.
    replace (z - 1 <? Z.of_nat (List.length (questions c)) - 1) with true
      by (symmetry; apply Z.ltb_lt; lia).
    f_equal. lia.
Qed.

Lemma next_and_previous_cancel_witness :
  (1 < Z.of_nat (List.length (questions reviewing_second)) - 1 ->
   currentQuestionIndex (operate [next; previous] reviewing_second) = JS.Fin 1) /\
  (0 < 1 ->
   currentQuestionIndex (operate [previous; next] reviewing_second) = JS.Fin 1).
Proof.
  apply (next_and_previous_cancel reviewing_second 1).
  - reflexivity.
  - vm_compute. split; [discriminate | reflexivity].
  - vm_compute. discriminate.
Defined.

(** ** The clock *)

(** X10. While the interval is scheduled and the clock is not at 0:00, a
    tick takes exactly one second off the clock and does nothing else: no
    effect, no other field.  Seconds that were within 0..59 stay within
    0..59, and minutes that were not negative stay so. *)
Theorem tick_takes_one_second (c : Component) (h : nat) :
  In h (intervals c) ->
  seconds c <> 0 \/ minutes c <> 0 ->
  exists m s,
    step c (tick h) = set_time m s c /\
    60 * m + s = remaining c - 1 /\
    (0 <= seconds c <= 59 -> 0 <= s <= 59) /\
    (0 <= seconds c -> 0 <= minutes c -> 0 <= m).
Proof.
  intros Hlive Hleft. unfold remaining.
  replace (step c (tick h))
    with (step (set_time (minutes c) (seconds c) c) (tick h))
    by (rewrite set_time_same; reflexivity).
  rewrite tick_running by exact Hlive.
  destruct (Z.eqb_spec (seconds c) 0) as [Es|Es].
  - destruct (Z.eqb_spec (minutes c) 0) as [Em|Em]; [lia|].
    exists (minutes c - 1), 59. repeat split; lia.
  - exists (minutes c), (seconds c - 1). repeat split; lia.
Qed.

Lemma tick_takes_one_second_witness :
  exists m s,
    step started_quiz (tick 1) = set_time m s started_quiz /\
    60 * m + s = remaining started_quiz - 1 /\
    (0 <= seconds started_quiz <= 59 -> 0 <= s <= 59) /\
    (0 <= seconds started_quiz -> 0 <= minutes started_quiz -> 0 <= m).
Proof.
  apply (tick_takes_one_second started_quiz 1%nat).
  - simpl. auto.
  - right. vm_compute. discriminate.
Defined.

(** X11. When the timer expires with every question answered (or with no
    question at all), the tick clears the interval and the forced
    submission goes through: the effects are the alert, the success toast,
    one grading request for the attendee and the exam, and the success
    toast a second time; the question view is hidden and no tick fires
    afterwards. *)
Theorem expiry_when_all_answered (c : Component) (h : nat) :
  minutes c = 0 -> seconds c = 0 ->
  timerInterval c = Some h -> In h (intervals c) ->
  (forall q, In q (questions c) -> answered q = true) ->
  effects (step c (tick h)) =
    effects c ++ [timeUpAlert; successToast;
                  evaluateExamResult (AttendeId c) (examId c); successToast] /\
  questionList (step c (tick h)) = false /\
  ~ In h (intervals (step c (tick h))) /\
  (forall n, ticks h n (step c (tick h)) = step c (tick h)).
Proof.
  intros Hm Hs Ht Hlive Hall.
  destruct (stopped_fields c) as (Hq & He & Ha & Hx & _).
  pose proof (stopped_not_live c h Ht) as Hout.
  rewrite tick_expiry by assumption. unfold exec.
  rewrite handleTimeUp_complete
    by (rewrite Hq; apply all_answered_none_open; exact Hall).
  cbn [snd effects questionList intervals set_effects set_questionList
       set_unansweredQuestionNumbers].
  rewrite stopped_stopped, He, Ha, Hx.
  split; [reflexivity|]. split; [reflexivity|]. split; [exact Hout|].
  intros n. apply ticks_cleared.
  cbn [intervals set_effects set_questionList set_unansweredQuestionNumbers].
  exact Hout.
Qed.

Lemma expiry_when_all_answered_witness :
  let c := ticks 1 120 answered_quiz in
  effects (step c (tick 1)) =
    effects c ++ [timeUpAlert; successToast;
                  evaluateExamResult (AttendeId c) (examId c); successToast] /\
  questionList (step c (tick 1)) = false /\
  ~ In 1%nat (intervals (step c (tick 1))) /\
  (forall n, ticks 1 n (step c (tick 1)) = step c (tick 1)).
Proof.
  apply (expiry_when_all_answered (ticks 1 120 answered_quiz) 1%nat).
  - vm_compute. reflexivity.
  - vm_compute. reflexivity.
  - vm_compute. reflexivity.
  - vm_compute. auto.
  - intros q Hq.
    assert (Hqs : questions (ticks 1 120 answered_quiz) = questions answered_quiz)
      by (vm_compute; reflexivity).
    rewrite Hqs in Hq. simpl in Hq.
    destruct Hq as [<-|[<-|[<-|[]]]]; reflexivity.
Defined.

Lemma handleSubmit_timer (c : Component) :
  intervals (exec handleSubmit c) = intervals (stopped c) /\
  minutes (exec handleSubmit c) = minutes c /\
  seconds (exec handleSubmit c) = seconds c /\
  timerInterval (exec handleSubmit c) = timerInterval c.
Proof.
  assert (Hs : minutes (stopped c) = minutes c /\ seconds (stopped c) = seconds c /\
               timerInterval (stopped c) = timerInterval c).
  { unfold stopped, exec, clearInterval. destruct (timerInterval c) eqn:E;
      simpl; rewrite ?E; auto. }
  destruct Hs as (Hm & Hs & Ht). unfold exec.
  destruct (unansweredFrom (questions c) 0) as [|n l] eqn:E.
  - rewrite handleSubmit_complete by exact E. cbn [snd]. auto.
  - rewrite handleSubmit_open by (rewrite E; discriminate). cbn [snd]. auto.
Qed.

(** X12. [handleSubmit] stops the clock whether or not the submission goes
    through: it clears the component's interval first, so afterwards that
    interval is not scheduled, its ticks change nothing, and the clock
    stands where it stood.  After a submission that was refused for an
    unanswered question the time therefore never runs out. *)
Theorem submit_stops_the_clock (c : Component) (h : nat) :
  timerInterval c = Some h ->
  ~ In h (intervals (exec handleSubmit c)) /\
  minutes (exec handleSubmit c) = minutes c /\
  seconds (exec handleSubmit c) = seconds c /\
  (forall n, ticks h n (exec handleSubmit c) = exec handleSubmit c).
Proof.
  intros Ht. destruct (handleSubmit_timer c) as (Hi & Hm & Hs & _).
  assert (Hout : ~ In h (intervals (exec handleSubmit c)))
    by (rewrite Hi; apply stopped_not_live; exact Ht).
  split; [exact Hout|]. split; [exact Hm|]. split; [exact Hs|].
  intros n. apply ticks_cleared. exact Hout.
Qed.

Lemma submit_stops_the_clock_witness :
  ~ In 1%nat (intervals (exec handleSubmit started_quiz)) /\
  minutes (exec handleSubmit started_quiz) = minutes started_quiz /\
  seconds (exec handleSubmit started_quiz) = seconds started_quiz /\
  (forall n, ticks 1 n (exec handleSubmit started_quiz) =
             exec handleSubmit started_quiz).
Proof.
  apply (submit_stops_the_clock started_quiz 1%nat).
  reflexivity.
Defined.

(** ** The answer of the grading service *)

(** X13. After a submission that went through, the answer of the service
    decides the view.  When the result arrives, it is stored with its two
    counts and the result view is shown.  When the call fails, an error is
    logged and an alert is raised, and nothing else changes: the question
    view stays hidden and the result view stays as it was, so neither is
    shown and no request is sent again. *)
Theorem grading_answer_decides_view (c : Component) (resultData : Apex.ResultDTO) :
  (forall q, In q (questions c) -> answered q = true) ->
  let sent := exec handleSubmit c in
  let shown := step sent (examEvaluated resultData) in
  let failed := step sent examFailed in
  (showResult shown = true /\
   result shown = Apex.result resultData /\
   correct shown = Apex.correctAnswers resultData /\
   wrong shown = Apex.incorrectAnswers resultData /\
   questionList shown = false) /\
  (questionList failed = false /\
   showResult failed = showResult c /\
   questions failed = questions c /\
   effects failed =
     effects sent ++
     [console error "Error evaluating exam:";
      alert "There was an error submitting your exam. Please try again."] /\
   gradingRequests (effects failed) =
     gradingRequests (effects c) ++ [(AttendeId c, examId c)]).
Proof.
  intros Hall sent shown failed.
  destruct (stopped_fields c) as (Hq & He & Ha & Hx & Hi & Hl & Hr & Ht).
  assert (Hsent : sent =
    set_effects
      (effects c ++ [successToast; evaluateExamResult (AttendeId c) (examId c)])
      (set_questionList false (set_unansweredQuestionNumbers [] (stopped c)))).
  { unfold sent, exec. rewrite handleSubmit_complete
      by (apply all_answered_none_open; exact Hall). reflexivity. }
  unfold shown, failed. rewrite Hsent. split.
  - repeat split.
  - unfold step, exec, dispatch, evaluateExamResult_catch, emit, assign, bind.
    cbn [snd questionList showResult questions effects set_effects
         set_questionList set_unansweredQuestionNumbers].
    rewrite Hr, Hq. repeat split.
    + rewrite <- !app_assoc. reflexivity.
    + rewrite !gradingRequests_app. simpl. rewrite !app_nil_r. reflexivity.
Qed.

Lemma grading_answer_decides_view_witness :
  let resultData :=
    {| Apex.result := "Pass"; Apex.correctAnswers := 3; Apex.incorrectAnswers := 0 |} in
  let sent := exec handleSubmit all_three in
  let shown := step sent (examEvaluated resultData) in
  let failed := step sent examFailed in
  (showResult shown = true /\
   result shown = Apex.result resultData /\
   correct shown = Apex.correctAnswers resultData /\
   wrong shown = Apex.incorrectAnswers resultData /\
   questionList shown = false) /\
  (questionList failed = false /\
   showResult failed = showResult all_three /\
   questions failed = questions all_three /\
   effects failed =
     effects sent ++
     [console error "Error evaluating exam:";
      alert "There was an error submitting your exam. Please try again."] /\
   gradingRequests (effects failed) =
     gradingRequests (effects all_three) ++
     [(AttendeId all_three, examId all_three)]).
Proof.
  apply (grading_answer_decides_view all_three
           {| Apex.result := "Pass"; Apex.correctAnswers := 3;
              Apex.incorrectAnswers := 0 |}).
  intros q Hq. simpl in Hq.
  destruct Hq as [<-|[<-|[<-|[]]]]; reflexivity.
Defined.

(** ** The submit button and the handler *)

Lemma isSubmitDisabled_spec (c : Component) :
  isSubmitDisabled c = false <->
  questions c <> [] /\ forallb answered (questions c) = true.
Proof.
  unfold isSubmitDisabled, allQuestionsAnswered. fold answered.
  change (fun q => existsb checked (optionList q)) with answered.
  destruct (questions c) as [|q rest]; simpl.
  - split; [discriminate | intros [H _]; contradiction].
  - destruct (answered q && forallb answered rest); simpl.
    + split; [intros _; split; [discriminate | reflexivity] | reflexivity].
    + split; [discriminate | intros [_ H]; discriminate].
Qed.

(** X14. [handleSubmit] sends the grading request exactly when no question
    is unanswered, that is, when the submit button is enabled or there is
    no question at all: the button asks for at least one question, the
    handler does not, so a submission forced on an empty sequence is
    sent.  In the other case no grading request is sent. *)
Theorem submit_sends_iff (c : Component) :
  (gradingRequests (effects (exec handleSubmit c)) =
   gradingRequests (effects c) ++ [(AttendeId c, examId c)]
   <-> isSubmitDisabled c = false \/ questions c = []) /\
  (gradingRequests (effects (exec handleSubmit c)) =
   gradingRequests (effects c)
   <-> ~ (isSubmitDisabled c = false \/ questions c = [])).
Proof.
  destruct (stopped_fields c) as (Hq & He & _).
  assert (Hbutton : isSubmitDisabled c = false \/ questions c = [] <->
                    forallb answered (questions c) = true).
  { rewrite isSubmitDisabled_spec. destruct (questions c) as [|q rest].
    - simpl. split; [reflexivity | right; reflexivity].
    - split; [intros [[_ H]|H]; [exact H | discriminate]|].
      intros H. left. split; [discriminate | exact H]. }
  rewrite Hbutton. unfold exec.
  destruct (forallb answered (questions c)) eqn:Eall.
  - rewrite handleSubmit_complete by (apply unansweredFrom_nil; exact Eall).
    cbn [snd effects set_effects]. rewrite gradingRequests_app. simpl.
    split; [tauto|]. split; [|intros H; exfalso; apply H; reflexivity].
    intros H. apply (f_equal (@List.length _)) in H.
    rewrite length_app in H. simpl in H. lia.
  - assert (Hopen : unansweredFrom (questions c) 0 <> []).
    { intros H. apply unansweredFrom_nil in H. congruence. }
    rewrite handleSubmit_open by exact Hopen.
    cbn [snd effects set_effects]. rewrite gradingRequests_app. simpl.
    rewrite app_nil_r. split.
    + split; [|discriminate]. intros H.
      apply (f_equal (@List.length _)) in H.
      rewrite length_app in H. simpl in H. lia.
    + split; [intros _; discriminate | reflexivity].
Qed.

(** ** Mounting *)

(** What [connectedCallback] does, by the exam identifier. *)
Lemma connectedCallback_run (c : Component) :
  exists c',
    connectedCallback c = (Normal tt, c') /\
    if JS.truthy (examId c) then
      effects c' = effects c ++ [getQuestionsByExamId (examId c)] /\
      timerInterval c' = Some (nextInterval c) /\
      intervals c' = intervals c ++ [nextInterval c] /\
      nextInterval c' = S (nextInterval c) /\
      questions c' = questions c /\
      minutes c' = minutes c /\ seconds c' = seconds c /\
      examId c' = examId c
    else c' = c.
Proof.
  unfold connectedCallback, bind, this.
  destruct (JS.truthy (examId c)) eqn:E.
  - unfold loadQuestions, startTimer, setInterval, emit, assign, bind, this, ret.
    eexists. split; [reflexivity|]. cbn. repeat split.
  - eexists. split; reflexivity.
Qed.


(** X15. [connectedCallback] returns normally.  With an exam identifier
    that is a non-empty string it requests the questions of that exam and
    schedules one new interval, whose handle it keeps; the questions and
    the clock are not touched.  Without one ([undefined] or the empty
    string) it does nothing at all. *)
Theorem mount_needs_exam (c : Component) :
  exists c',
    connectedCallback c = (Normal tt, c') /\
    if JS.truthy (examId c) then
      effects c' = effects c ++ [getQuestionsByExamId (examId c)] /\
      timerInterval c' = Some (nextInterval c) /\
      intervals c' = intervals c ++ [nextInterval c] /\
      nextInterval c' = S (nextInterval c) /\
      questions c' = questions c /\
      minutes c' = minutes c /\ seconds c' = seconds c /\
      examId c' = examId c
    else c' = c.
Proof. exact (connectedCallback_run c). Qed.

(** X16. Mounting the component a second time schedules a second interval
    and keeps only its handle: both intervals are scheduled on the same
    clock, and [handleSubmit], which clears the handle it has, leaves the
    first one scheduled. *)
Theorem second_mount_leaves_first_interval (c : Component) :
  JS.truthy (examId c) = true ->
  let twice := run [connected; connected] c in
  timerInterval twice = Some (S (nextInterval c)) /\
  In (nextInterval c) (intervals twice) /\
  In (S (nextInterval c)) (intervals twice) /\
  In (nextInterval c) (intervals (exec handleSubmit twice)).
Proof.
  intros E twice. unfold twice, run. cbn [fold_left].
  unfold step, exec. cbn [dispatch].
  destruct (connectedCallback_run c) as [c1 [-> H1]]. rewrite E in H1.
  destruct H1 as (_ & _ & Hi1 & Hn1 & _ & _ & _ & Hx1). cbn [snd].
  destruct (connectedCallback_run c1) as [c2 [-> H2]]. rewrite Hx1, E in H2.
  destruct H2 as (_ & Ht2 & Hi2 & _). cbn [snd].
  rewrite Hn1 in Ht2. rewrite Hi1, Hn1 in Hi2.
  split; [exact Ht2|]. split.
  { rewrite Hi2, !in_app_iff. left. right. left. reflexivity. }
  split.
  { rewrite Hi2, !in_app_iff. right. left. reflexivity. }
  destruct (handleSubmit_timer c2) as (Hi & _). unfold exec in Hi. rewrite Hi.
  rewrite (stopped_intervals c2 _ Ht2). apply filter_In. split.
  - rewrite Hi2, !in_app_iff. left. right. left. reflexivity.
  - apply Bool.negb_true_iff, Nat.eqb_neq. lia.
Qed.

Lemma second_mount_leaves_first_interval_witness :
  let c := init (Some "ATT-7") (Some "EXAM-1") in
  let twice := run [connected; connected] c in
  timerInterval twice = Some (S (nextInterval c)) /\
  In (nextInterval c) (intervals twice) /\
  In (S (nextInterval c)) (intervals twice) /\
  In (nextInterval c) (intervals (exec handleSubmit twice)).
Proof.
  apply (second_mount_leaves_first_interval (init (Some "ATT-7") (Some "EXAM-1"))).
  reflexivity.
Defined.

(** ** What the operations do to the questions *)

Lemma update_same {A : Type} (array : list A) :
  forall i, JS.update array i (fun x => x) = array.
Proof.
  induction array as [|x rest IH]; intros [|i]; simpl; try reflexivity.
  rewrite IH. reflexivity.
Qed.

Lemma update_beyond {A : Type} (f : A -> A) (array : list A) :
  JS.update array (List.length array) f = array.
Proof.
  induction array as [|x rest IH]; simpl; [|rewrite IH]; reflexivity.
Qed.

Lemma handleNext_questions (c : Component) :
  questions (exec handleNext c) = questions c /\
  effects (exec handleNext c) = effects c.
Proof.
  unfold exec, handleNext, bind.
  destruct (updateUnansweredTracking_frame c) as [r [l [-> _]]].
  destruct r as [[]|e]; [|split; reflexivity].
  unfold this. cbn [currentQuestionIndex questions set_unansweredQuestionNumbers].
  destruct (JS.ltb _ _); split; reflexivity.
Qed.

Lemma handlePrevious_questions (c : Component) :
  questions (exec handlePrevious c) = questions c /\
  effects (exec handlePrevious c) = effects c.
Proof.
  unfold exec, handlePrevious, bind.
  destruct (updateUnansweredTracking_frame c) as [r [l [-> _]]].
  destruct r as [[]|e]; [|split; reflexivity].
  unfold this. cbn [currentQuestionIndex questions set_unansweredQuestionNumbers].
  destruct (JS.ltb _ _); split; reflexivity.
Qed.

Lemma handleReview_run (c : Component) :
  exists i,
    questions (exec handleReview c) =
      JS.update (questions c) i
        (fun q => set_badgeClass "badge review" (set_reviewed true q)) /\
    effects (exec handleReview c) = effects c.
Proof.
  unfold exec, handleReview.
  destruct (get_currentQuestion c) as [q|] eqn:Hq.
  - destruct (current_index c q Hq) as [z (Hz & Hpos & Hn)].
    rewrite (bind_run _ _ _ _ _ (currentQuestion_run c q Hq)).
    rewrite (bind_run _ _ _ _ _
               (mutateCurrentQuestion_exact (set_reviewed true) c z Hz Hpos)).
    erewrite (mutateCurrentQuestion_exact _ _ z); [ | exact Hz | exact Hpos].
    cbn [snd questions effects set_questions]. rewrite update_update.
    exists (Z.to_nat z). split; reflexivity.
  - rewrite (bind_throw _ _ _ _ _ (currentQuestion_throw c Hq)). cbn [snd].
    exists (List.length (questions c)). split; [|reflexivity].
    symmetry. apply update_beyond.
Qed.

Lemma handleOptionChange_questions (v : string) (c : Component) :
  exists i,
    questions (exec (handleOptionChange v) c) =
      JS.update (questions c) i (chosen v) /\
    gradingRequests (effects (exec (handleOptionChange v) c)) =
      gradingRequests (effects c).
Proof.
  unfold exec.
  destruct (get_currentQuestion c) as [q|] eqn:Hq.
  - destruct (current_index c q Hq) as [z (Hz & Hpos & Hn)].
    destruct (handleOptionChange_run v c z q Hz Hpos Hn)
      as [c' (-> & Hqs & _ & He & _)].
    cbn [snd]. exists (Z.to_nat z). split; [exact Hqs|].
    rewrite He, gradingRequests_app.
    destruct (optionOf v q); simpl; apply app_nil_r.
  - unfold handleOptionChange.
    rewrite (bind_throw _ _ _ _ _ (currentQuestion_throw c Hq)). cbn [snd].
    exists (List.length (questions c)). split; [|reflexivity].
    symmetry. apply update_beyond.
Qed.

(** Each operation leaves the questions alone, or writes one of them: as
    chosen for a value, or as marked for review. *)
Lemma perform_questions (op : Operation) (c : Component) :
  exists i f,
    questions (exec (perform op) c) = JS.update (questions c) i f /\
    (f = (fun q => q) \/
     (exists v, f = chosen v) \/
     f = (fun q => set_badgeClass "badge review" (set_reviewed true q))).
Proof.
  destruct op; cbn [perform].
  - destruct (handleOptionChange_questions value0 c) as [i [H _]].
    exists i, (chosen value0). split; [exact H | right; left; eauto].
  - destruct (handleReview_run c) as [i [H _]].
    exists i, (fun q => set_badgeClass "badge review" (set_reviewed true q)).
    split; [exact H | right; right; reflexivity].
  - exists 0%nat, (fun q => q). rewrite update_same.
    split; [apply handleNext_questions | left; reflexivity].
  - exists 0%nat, (fun q => q). rewrite update_same.
    split; [apply handlePrevious_questions | left; reflexivity].
  - exists 0%nat, (fun q => q). rewrite update_same. split; [|left; reflexivity].
    unfold exec. rewrite handleBadgeClick_run. cbn [snd].
    destruct (JS.isNaN _); reflexivity.
  - exists 0%nat, (fun q => q). rewrite update_same. split; [|left; reflexivity].
    apply handleSubmit_questions.
Qed.

(** A property of questions that choosing and marking for review keep, or
    establish, holds of all questions after any operations once it holds
    of all of them. *)
Lemma operate_Forall (P : Question -> Prop) :
  (forall v q, P q -> P (chosen v q)) ->
  (forall q, P q -> P (set_badgeClass "badge review" (set_reviewed true q))) ->
  forall ops c, Forall P (questions c) -> Forall P (questions (operate ops c)).
Proof.
  intros Hchosen Hreview ops. unfold operate.
  induction ops as [|op ops IH]; intros c Hc; cbn [fold_left].
  - exact Hc.
  - apply IH. destruct (perform_questions op c) as [i [f [-> Hf]]].
    apply update_Forall; [|exact Hc].
    destruct Hf as [-> | [[v ->] | ->]]; auto.
Qed.

Lemma chosen_optionList (v : string) (q : Question) :
  optionList (chosen v q) = map (mark v) (optionList q).
Proof.
  unfold chosen. cbn [optionList set_optionList reviewed].
  destruct (existsb checked (map (mark v) (optionList q)));
    destruct (reviewed q); reflexivity.
Qed.

Lemma chosen_content (v : string) (q : Question) :
  content (chosen v q) = content q.
Proof.
  unfold content. rewrite chosen_optionList.
  assert (map (fun o => (label o, value o)) (map (mark v) (optionList q)) =
          map (fun o => (label o, value o)) (optionList q)) as ->.
  { induction (optionList q) as [|o rest IH]; simpl; [|rewrite IH]; reflexivity. }
  unfold chosen. cbn [optionList set_optionList reviewed].
  destruct (existsb checked (map (mark v) (optionList q)));
    destruct (reviewed q); reflexivity.
Qed.

Lemma update_map {A B : Type} (g : A -> B) (f : A -> A) (array : list A) :
  (forall x, g (f x) = g x) ->
  forall i, map g (JS.update array i f) = map g array.
Proof.
  intros H. induction array as [|x rest IH]; intros [|i]; simpl;
    rewrite ?H, ?IH; reflexivity.
Qed.

(** The operations keep the content of every question. *)
Lemma operate_content (ops : list Operation) (c : Component) :
  map content (questions (operate ops c)) = map content (questions c).
Proof.
  unfold operate. revert c.
  induction ops as [|op ops IH]; intros c; cbn [fold_left].
  - reflexivity.
  - rewrite IH. destruct (perform_questions op c) as [i [f [-> Hf]]].
    apply update_map. destruct Hf as [-> | [[v ->] | ->]]; intros q.
    + reflexivity.
    + apply chosen_content.
    + reflexivity.
Qed.

(** X17. No operation of the user changes what was loaded: after any
    sequence of selectOption, markForReview, next, previous, jumpTo and
    submit, from any state, there are the same questions in the same
    order, each with its identifier, text and number, and each option with
    its label and value. *)
Theorem operations_keep_content (ops : list Operation) (c : Component) :
  map content (questions (operate ops c)) = map content (questions c).
Proof. apply operate_content. Qed.

Lemma loaded_Forall (P : Question -> Prop) (attendee exam : option string)
  (result : list Apex.QuestionDTO) :
  (forall dto i, P (loaded_question dto i)) ->
  Forall P (questions (loaded attendee exam result)).
Proof.
  intros H. rewrite loaded_questions. apply map_from_Forall.
  intros dto i _. apply H.
Qed.

Lemma mark_styled (v : string) (options : list Option_) :
  Forall styled (map (mark v) options).
Proof.
  induction options as [|o rest IH]; simpl; constructor; [|exact IH].
  unfold styled, mark. cbn [checked cssClass]. reflexivity.
Qed.

(** X18. In every state reached from a loaded sequence by the user's
    operations, the class of every option tells whether it is selected:
    the selected class on the selected options and the plain class on the
    others. *)
Theorem option_class_follows_selection (attendee exam : option string)
  (result : list Apex.QuestionDTO) (ops : list Operation) :
  Forall (fun q => Forall styled (optionList q))
    (questions (operate ops (loaded attendee exam result))).
Proof.
  apply operate_Forall.
  - intros v q _. rewrite chosen_optionList. apply mark_styled.
  - intros q H. exact H.
  - apply loaded_Forall. intros dto i. unfold loaded_question. cbn [optionList].
    unfold JS.mapi. generalize 0%nat.
    induction (Apex.options dto) as [|o rest IH]; intros start; simpl;
      constructor; [reflexivity | apply IH].
Qed.

Lemma chosen_badged (v : string) (q : Question) : badged (chosen v q).
Proof.
  unfold badged, answered. rewrite chosen_optionList.
  unfold chosen. cbn [optionList set_optionList reviewed].
  destruct (existsb checked (map (mark v) (optionList q))) eqn:E.
  - right. left. destruct (reviewed q) eqn:R; cbn; auto.
  - destruct (reviewed q) eqn:R; cbn; rewrite R; auto.
Qed.

(** X19. In every state reached from a loaded sequence by the user's
    operations, each question is in one of three conditions: marked for
    review with the review badge (answered or not); not marked, answered,
    with the answered badge; or not marked, unanswered, with the
    unanswered badge.  So the review flag is set exactly under the review
    badge, and the answered badge is only on answered questions. *)
Theorem badge_follows_flag_and_selection (attendee exam : option string)
  (result : list Apex.QuestionDTO) (ops : list Operation) :
  Forall badged (questions (operate ops (loaded attendee exam result))).
Proof.
  apply operate_Forall.
  - intros v q _. apply chosen_badged.
  - intros q _. left. split; reflexivity.
  - apply loaded_Forall. intros dto i. right. right.
    unfold loaded_question, answered. cbn [badgeClass reviewed optionList].
    repeat split. unfold JS.mapi. generalize 0%nat.
    induction (Apex.options dto) as [|o rest IH]; intros start; simpl;
      [reflexivity | apply IH].
Qed.

(** ** Grading requests come from submissions only *)

Lemma emit_grading (e : Effect) (c : Component) :
  (forall a x, e <> evaluateExamResult a x) ->
  gradingRequests (effects (snd (emit e c))) = gradingRequests (effects c).
Proof.
  intros H. unfold emit, assign. cbn [snd effects set_effects].
  rewrite gradingRequests_app.
  destruct e; simpl; try apply app_nil_r.
  exfalso. eapply H. reflexivity.
Qed.

(** X20. Only a submission sends a grading request: mounting, the arrival
    or the failure of the questions, selecting, marking for review, next,
    previous, a jump, and the answers of the save and grading calls send
    none, whatever the state.  In particular a failed grading call is not
    repeated. *)
Theorem grading_only_on_submission (c : Component) (e : Event) :
  submits e = false ->
  gradingRequests (effects (step c e)) = gradingRequests (effects c).
Proof.
  intros He. unfold step, exec.
  destruct e as [ | result | | op | h | | | resultData | ];
    try discriminate He; cbn [dispatch].
  - destruct (connectedCallback_run c) as [c' [-> H]]. cbn [snd].
    destruct (JS.truthy (examId c)).
    + destruct H as (-> & _). rewrite gradingRequests_app. apply app_nil_r.
    + rewrite H. reflexivity.
  - unfold loadQuestions_then, bind, assign.
    rewrite emit_grading by discriminate. reflexivity.
  - unfold loadQuestions_catch. apply emit_grading. discriminate.
  - destruct op; try discriminate He; cbn [perform].
    + destruct (handleOptionChange_questions value0 c) as [i [_ H]].
      exact H.
    + destruct (handleReview_run c) as [i [_ H]]. unfold exec in H.
      rewrite H. reflexivity.
    + destruct (handleNext_questions c) as [_ H]. unfold exec in H.
      rewrite H. reflexivity.
    + destruct (handlePrevious_questions c) as [_ H]. unfold exec in H.
      rewrite H. reflexivity.
    + rewrite handleBadgeClick_run. cbn [snd].
      destruct (JS.isNaN _); reflexivity.
  - unfold saveOrUpdateResponse_then. apply emit_grading. discriminate.
  - unfold saveOrUpdateResponse_catch. apply emit_grading. discriminate.
  - unfold evaluateExamResult_then, bind, assign.
    rewrite emit_grading by discriminate. reflexivity.
  - unfold evaluateExamResult_catch, bind.
    destruct (emit (console error "Error evaluating exam:") c) as [[[]|x] c1] eqn:E.
    + rewrite emit_grading by discriminate.
      change c1 with (snd (Normal tt, c1)). rewrite <- E.
      apply emit_grading. discriminate.
    + discriminate E.
Qed.

Lemma grading_only_on_submission_witness :
  gradingRequests (effects (step (exec handleSubmit all_three) examFailed)) =
  gradingRequests (effects (exec handleSubmit all_three)).
Proof.
  apply (grading_only_on_submission (exec handleSubmit all_three) examFailed).
  reflexivity.
Defined.

(** ** The texts of the service *)

Lemma loaded_served (attendee exam : option string)
  (result : list Apex.QuestionDTO) :
  map served (questions (loaded attendee exam result)) =
  map (fun dto => (Apex.questionId dto, Apex.questionText dto, Apex.options dto))
    result.
Proof.
  rewrite loaded_questions. unfold JS.mapi. generalize 0%nat.
  induction result as [|dto rest IH]; intros start; cbn [JS.map_from map].
  - reflexivity.
  - f_equal; [|apply IH].
    unfold served, loaded_question. cbn [questionId questionText optionList].
    unfold JS.mapi. rewrite loaded_option_values. reflexivity.
Qed.

Lemma served_content (l l' : list Question) :
  map content l = map content l' -> map served l = map served l'.
Proof.
  intros H.
  assert (E : forall l0, map served l0 =
            map (fun t : string * string * Z * list (string * string) =>
                   let '(id, text, _, options) := t in (id, text, map snd options))
              (map content l0)).
  { intros l0. rewrite map_map. apply map_ext. intros q.
    unfold served, content. rewrite map_map. reflexivity. }
  rewrite (E l), (E l'), H. reflexivity.
Qed.

(** X21. The component holds what the service returned, for any number
    of questions and of options: after loading, and after any operations
    of the user on top, the questions are those of the service in the same
    order, with their identifiers and texts, and the values of the options
    of each are the option texts in the order returned. *)
Theorem service_texts_are_kept (attendee exam : option string)
  (result : list Apex.QuestionDTO) (ops : list Operation) :
  map served (questions (operate ops (loaded attendee exam result))) =
  map (fun dto => (Apex.questionId dto, Apex.questionText dto, Apex.options dto))
    result.
Proof.
  rewrite <- (loaded_served attendee exam result).
  apply served_content. apply operate_content.
Qed.

(** ** What the events leave alone *)

Lemma handleSubmit_forEach_invariant (I : Component -> Prop) :
  (forall c l, I c -> I (set_unansweredQuestionNumbers l c)) ->
  forall array index acc, invariant I (handleSubmit_forEach array index acc).
Proof.
  intros Hu. induction array as [|q rest IH]; intros index acc; simpl.
  - apply invariant_ret.
  - destruct (List.find checked (optionList q)).
    + apply IH.
    + apply invariant_bind; [|intros; apply IH].
      apply invariant_assign. intros c H. apply Hu. exact H.
Qed.

Section Frame.
Variable I : Component -> Prop.
Hypothesis I_questions : forall c v, I c -> I (set_questions v c).
Hypothesis I_index : forall c v, I c -> I (set_currentQuestionIndex v c).
Hypothesis I_unanswered : forall c v, I c -> I (set_unansweredQuestionNumbers v c).
Hypothesis I_questionList : forall c v, I c -> I (set_questionList v c).
Hypothesis I_timer : forall c h l n, I c -> I (set_timer h l n c).
Hypothesis I_effects : forall c v, I c -> I (set_effects v c).

Lemma frame_tracking : invariant I updateUnansweredTracking.
Proof.
  intros c H. destruct (updateUnansweredTracking_frame c) as [r [l [-> _]]].
  apply I_unanswered. exact H.
Qed.

Lemma frame_clearInterval (handle : option nat) :
  invariant I (clearInterval handle).
Proof.
  destruct handle; unfold clearInterval; [|apply invariant_ret].
  apply invariant_assign. intros c H. apply I_timer. exact H.
Qed.

Lemma frame_handleSubmit : invariant I handleSubmit.
Proof.
  unfold handleSubmit, showNotification.
  repeat first
    [ apply frame_clearInterval
    | apply handleSubmit_forEach_invariant; exact I_unanswered
    | invariant_step ]; auto.
Qed.

Lemma frame_perform (op : Operation) : invariant I (perform op).
Proof.
  destruct op; cbn [perform].
  - unfold handleOptionChange.
    repeat first
      [ apply frame_tracking
      | apply currentQuestion_invariant
      | apply mutateCurrentQuestion_invariant; intros ? ? ?
      | invariant_step ]; auto.
  - unfold handleReview.
    repeat first
      [ apply currentQuestion_invariant
      | apply mutateCurrentQuestion_invariant; intros ? ? ?
      | invariant_step ]; auto.
  - unfold handleNext. repeat first [ apply frame_tracking | invariant_step ]; auto.
  - unfold handlePrevious. repeat first [ apply frame_tracking | invariant_step ]; auto.
  - unfold handleBadgeClick. repeat invariant_step; auto.
  - apply frame_handleSubmit.
Qed.

(** An event keeps a property that none of the fields it writes bears on:
    a tick writes the clock besides, and the arrival of the result the
    outcome. *)
Lemma frame_dispatch (e : Event) :
  (forall c m s, I c -> I (set_time m s c)) \/ isTick e = false ->
  (forall c r, I c -> I (set_result r c)) \/ isResult e = false ->
  invariant I (dispatch e).
Proof.
  intros Htime Hresult.
  destruct e as [ | result | | op | h | | | resultData | ]; cbn [dispatch].
  - unfold connectedCallback, loadQuestions, startTimer, setInterval.
    repeat invariant_step; auto.
  - unfold loadQuestions_then. repeat invariant_step; auto.
  - unfold loadQuestions_catch. repeat invariant_step; auto.
  - apply frame_perform.
  - destruct Htime as [Htime|Htime]; [|discriminate Htime].
    unfold startTimer_callback, handleTimeUp, showNotification.
    repeat first
      [ apply frame_handleSubmit | apply frame_clearInterval | invariant_step ];
      auto.
  - unfold saveOrUpdateResponse_then. repeat invariant_step; auto.
  - unfold saveOrUpdateResponse_catch. repeat invariant_step; auto.
  - destruct Hresult as [Hresult|Hresult]; [|discriminate Hresult].
    unfold evaluateExamResult_then. repeat invariant_step; auto.
  - unfold evaluateExamResult_catch. repeat invariant_step; auto.
Qed.
End Frame.

(** X22. The result view and the stored result come from the grading
    service alone: every event other than the arrival of the result
    leaves showResult, result, correct and wrong as they were, in every
    state. *)
Theorem outcome_only_from_service (c : Component) (e : Event) :
  isResult e = false ->
  outcome (step c e) = outcome c.
Proof.
  intros He.
  apply (frame_dispatch (fun c' => outcome c' = outcome c)); auto.
Qed.

Lemma outcome_only_from_service_witness :
  outcome (step (exec handleSubmit all_three) examFailed) =
  outcome (exec handleSubmit all_three).
Proof.
  apply (outcome_only_from_service (exec handleSubmit all_three) examFailed).
  reflexivity.
Defined.

(** X23. Only ticks move the clock: every event other than a tick leaves
    minutes and seconds as they were, in every state.  Mounting again or
    loading again does not set the clock back, and no answer or operation
    changes the time on it. *)
Theorem clock_only_moves_on_ticks (c : Component) (e : Event) :
  isTick e = false ->
  minutes (step c e) = minutes c /\ seconds (step c e) = seconds c.
Proof.
  intros He.
  apply (frame_dispatch
           (fun c' => minutes c' = minutes c /\ seconds c' = seconds c)); auto.
Qed.

Lemma clock_only_moves_on_ticks_witness :
  minutes (step (ticks 1 61 started_quiz) connected) =
    minutes (ticks 1 61 started_quiz) /\
  seconds (step (ticks 1 61 started_quiz) connected) =
    seconds (ticks 1 61 started_quiz).
Proof.
  apply (clock_only_moves_on_ticks (ticks 1 61 started_quiz) connected).
  reflexivity.
Defined.

(** ** The numbers on the unanswered list *)

Lemma tracking_listedExist (len : nat) :
  Z.of_nat len <= JS.MAX_ARRAY_LENGTH ->
  invariant (listedExist len) updateUnansweredTracking.
Proof.
  intros Hlen c [Hl Hf]. unfold JS.MAX_ARRAY_LENGTH in Hlen.
  assert (2 ^ 32 - 1 <= 2 ^ 53) by (vm_compute; discriminate).
  destruct (get_currentQuestion c) as [q|] eqn:Hq.
  - destruct (current_index c q Hq) as [z (Hz & Hpos & Hn)].
    assert (Hz_lt : z < Z.of_nat len).
    { assert (Z.to_nat z < List.length (questions c))%nat
        by (apply nth_error_Some; congruence). lia. }
    unfold updateUnansweredTracking.
    unfold bind at 1. unfold this at 1. rewrite Hz.
    rewrite (bind_run _ _ _ _ _ (currentQuestion_run c q Hq)).
    cbn [JS.plus]. rewrite roundToDouble_safe by (unfold JS.MAX_SAFE; lia).
    destruct (existsb checked (optionList q)); cbn [negb].
    + unfold assign. cbn [snd]. split; [exact Hl|].
      cbn [unansweredQuestionNumbers set_unansweredQuestionNumbers].
      apply Forall_forall. intros n Hin. apply filter_In in Hin.
      rewrite Forall_forall in Hf. apply Hf. tauto.
    + unfold bind, this.
      destruct (existsb _ (unansweredQuestionNumbers c)); cbn [negb].
      * split; [exact Hl | exact Hf].
      * unfold assign. cbn [snd]. split; [exact Hl|].
        cbn [unansweredQuestionNumbers set_unansweredQuestionNumbers].
        apply Forall_app. split; [exact Hf|].
        constructor; [|constructor]. exists (z + 1). split; [reflexivity | lia].
  - rewrite updateUnansweredTracking_throw by exact Hq. split; assumption.
Qed.

Lemma mutateCurrentQuestion_listedExist (len : nat) (f : Question -> Question) :
  invariant (listedExist len) (mutateCurrentQuestion f).
Proof.
  unfold mutateCurrentQuestion.
  invariant_step; [invariant_step|].
  destruct a as [| |z]; repeat invariant_step; try assumption.
  destruct H as [Hl Hf]. split; [|exact Hf].
  cbn [questions set_questions]. rewrite update_length. exact Hl.
Qed.

Lemma handleSubmit_listedExist (len : nat) :
  invariant (listedExist len) handleSubmit.
Proof.
  intros c [Hl _]. destruct (stopped_fields c) as (Hq & _).
  assert (Hall : Forall (fun n => exists k, n = JS.Fin k /\ 1 <= k <= Z.of_nat len)
                   (map JS.Fin (unansweredFrom (questions c) 0))).
  { apply Forall_forall. intros n Hin. apply in_map_iff in Hin.
    destruct Hin as [k [<- Hk]]. exists k. split; [reflexivity|].
    apply unansweredFrom_In in Hk. destruct Hk as [Hpos [q [Hn _]]].
    assert (Z.to_nat (k - 0 - 1) < List.length (questions c))%nat
      by (apply nth_error_Some; congruence). lia. }
  destruct (unansweredFrom (questions c) 0) as [|n l] eqn:E.
  - rewrite handleSubmit_complete by exact E. split; [|constructor].
    cbn [snd questions set_effects set_questionList set_unansweredQuestionNumbers].
    rewrite Hq. exact Hl.
  - rewrite handleSubmit_open by (rewrite E; discriminate).
    split; [|rewrite E; exact Hall].
    cbn [snd questions set_effects set_unansweredQuestionNumbers].
    rewrite Hq. exact Hl.
Qed.

Lemma perform_listedExist (len : nat) (op : Operation) :
  Z.of_nat len <= JS.MAX_ARRAY_LENGTH ->
  invariant (listedExist len) (perform op).
Proof.
  intros Hlen. destruct op; cbn [perform].
  - unfold handleOptionChange.
    repeat first
      [ apply tracking_listedExist; exact Hlen
      | apply currentQuestion_invariant
      | apply mutateCurrentQuestion_listedExist
      | invariant_step ]; assumption.
  - unfold handleReview.
    repeat first
      [ apply currentQuestion_invariant
      | apply mutateCurrentQuestion_listedExist
      | invariant_step ]; assumption.
  - unfold handleNext.
    repeat first [ apply tracking_listedExist; exact Hlen | invariant_step ];
      assumption.
  - unfold handlePrevious.
    repeat first [ apply tracking_listedExist; exact Hlen | invariant_step ];
      assumption.
  - unfold handleBadgeClick. repeat invariant_step; assumption.
  - apply handleSubmit_listedExist.
Qed.

(** X24. The unanswered list only ever names questions that exist: in
    every state reached from a loaded sequence (an array, so of fewer than
    2^32 questions) by the user's operations, jumps outside the sequence
    included, every listed number is an integer from 1 to the number of
    questions. *)
Theorem listed_numbers_exist (attendee exam : option string)
  (result : list Apex.QuestionDTO) (ops : list Operation) :
  Z.of_nat (List.length result) <= JS.MAX_ARRAY_LENGTH ->
  Forall (fun n => exists k, n = JS.Fin k /\ 1 <= k <= Z.of_nat (List.length result))
    (unansweredQuestionNumbers (operate ops (loaded attendee exam result))).
Proof.
  intros Hlen.
  assert (H : listedExist (List.length result)
                (operate ops (loaded attendee exam result))).
  { apply operate_invariant.
    - intros op _. apply perform_listedExist. exact Hlen.
    - split; [|constructor]. rewrite loaded_questions. apply map_from_length. }
  apply H.
Qed.

Lemma listed_numbers_exist_witness :
  Forall (fun n => exists k, n = JS.Fin k /\ 1 <= k <= Z.of_nat (List.length quiz))
    (unansweredQuestionNumbers
       (operate [next; jumpTo "7"; next; jumpTo "3"; previous; submit]
          (loaded (Some "ATT-7") (Some "EXAM-1") quiz))).
Proof.
  apply (listed_numbers_exist (Some "ATT-7") (Some "EXAM-1") quiz
           [next; jumpTo "7"; next; jumpTo "3"; previous; submit]).
  vm_compute. discriminate.
Defined.

(** ** The countdown from any time *)



